(** * Placeholder-image backend: a shallow embedding of [main.py]

    The service has three pieces of logic worth modelling:
    - the greedy text wrapper [wrap_text] nested in the synthesizer,
    - the procedural synthesizer [_generate_placeholder_image] and the
      request handler [generate_image] around it,
    - the diagnostics handler [test_database].

    Python values are modelled as follows: [int] is [Z]; [str] is a list of
    Unicode code points ([len] counts code points, as Python does); [bytes]
    is a list of [Byte.byte]; [float] is IEEE binary64, through the
    Standard Library's [spec_float] at precision 53; a [dict] with string
    keys is a [gmap string _]; exceptions are values of type [exc] carried
    by the [Raise] branch of a result type.  The pseudo-random generator,
    the C library's [pow] and Pillow are collaborators of the program:
    they enter through the interfaces [PRNG], [Libm] and [Pillow] below,
    and the properties are proved for every implementation of them. *)

From Stdlib Require Import ZArith NArith List String Ascii Bool Lia.
From Stdlib Require Import DecimalString.
From Stdlib Require Import Floats.SpecFloat.
From stdpp Require Import base option list strings gmap.

Local Open Scope Z_scope.

(** ** Python strings *)

(** A [str] is a sequence of code points. *)
Abbreviation pychar := N (only parsing).
Abbreviation pystr := (list N) (only parsing).

(** ASCII literals of the source, as code points. *)
Definition lit (s : string) : pystr :=
  map N_of_ascii (list_ascii_of_string s).

(** [str(n)] for an int [n]. *)
Definition str_of_int (n : Z) : pystr :=
  lit (NilZero.string_of_int (Z.to_int n)).

(** [len(s)] *)
Definition len {A} (s : list A) : Z := Z.of_nat (length s).

(** [s[:n]] for a non-negative literal [n]. *)
Definition slice_to {A} (n : nat) (s : list A) : list A := take n s.

(** The code points for which [str.isspace] holds, which are the
    separators of [str.split()] without arguments. *)
Definition py_isspace (c : pychar) : bool :=
  ((9 <=? c) && (c <=? 13) || (28 <=? c) && (c <=? 32)
   || (c =? 133) || (c =? 160) || (c =? 5760)
   || (8192 <=? c) && (c <=? 8202)
   || (c =? 8232) || (c =? 8233) || (c =? 8239) || (c =? 8287)
   || (c =? 12288))%N.

(** [text.split()]: maximal runs of non-space characters, in order.
    [cur] is the word being read. *)
Fixpoint split_from (cur : pystr) (s : pystr) : list pystr :=
  match s with
  | [] => match cur with [] => [] | _ => [cur] end
  | c :: s' =>
      if py_isspace c
      then match cur with
           | [] => split_from [] s'
           | _ => cur :: split_from [] s'
           end
      else split_from (cur ++ [c]) s'
  end.

Definition py_split (text : pystr) : list pystr := split_from [] text.

(** [sep.join(ws)] *)
Fixpoint py_join (sep : pystr) (ws : list pystr) : pystr :=
  match ws with
  | [] => []
  | [w] => w
  | w :: ws' => w ++ sep ++ py_join sep ws'
  end.

Definition space : pystr := lit " ".
Definition newline : pystr := [10%N].

(** ** The text wrapper *)

Module Wrap.

(** The two accumulators of the loop in [wrap_text]. *)
Record state := State { lines : list pystr; line : list pystr }.

(** [sum(len(x) for x in line)] *)
Definition sum_len (l : list pystr) : Z :=
  fold_right (fun x acc => len x + acc) 0 l.

(** One iteration of [for w in words]. *)
Definition step (max_chars : Z) (st : state) (w : pystr) : state :=
  if sum_len (line st) + len (line st) + len w >? max_chars
  then State (lines st ++ [py_join space (line st)]) [w]
  else State (lines st) (line st ++ [w]).

(** [if line: lines.append(" ".join(line))] *)
Definition flush (st : state) : list pystr :=
  match line st with
  | [] => lines st
  | _ => lines st ++ [py_join space (line st)]
  end.

(** The value of [lines] just before the final slice. *)
Definition wrap_lines (text : pystr) (max_chars : Z) : list pystr :=
  flush (fold_left (step max_chars) (py_split text) (State [] [])).

(** [wrap_text(text, max_chars)] *)
Definition wrap_text (text : pystr) (max_chars : Z) : list pystr :=
  slice_to 6 (wrap_lines text max_chars).

(** The wrapper as the specification words it: keep a current line; the
    next word joins it unless the joined line, spaces included, would be
    longer than the maximum, in which case the current line is emitted and
    the word starts a new one. *)
Fixpoint greedy (max_chars : Z) (cur : list pystr) (ws : list pystr)
  : list pystr :=
  match ws with
  | [] => match cur with [] => [] | _ => [py_join space cur] end
  | w :: ws' =>
      if len (py_join space (cur ++ [w])) >? max_chars
      then py_join space cur :: greedy max_chars [w] ws'
      else greedy max_chars (cur ++ [w]) ws'
  end.

(** The same, keeping each line as its list of words. *)
Fixpoint greedy_groups (max_chars : Z) (cur : list pystr) (ws : list pystr)
  : list (list pystr) :=
  match ws with
  | [] => match cur with [] => [] | _ => [cur] end
  | w :: ws' =>
      if len (py_join space (cur ++ [w])) >? max_chars
      then cur :: greedy_groups max_chars [w] ws'
      else greedy_groups max_chars (cur ++ [w]) ws'
  end.

End Wrap.

(** ** Exceptions, results and the two monads of the embedding *)

(** The classes of [Exception] the program tells apart or raises itself.
    [ImportError] stands for the class and its subclasses, which is what
    [except ImportError] catches. *)
Inductive exc_class :=
  | ImportError
  | ValueError
  | OverflowError
  | ZeroDivisionError
  | OtherException (name : string).

(** An instance of [Exception]: its class and [str(e)]. *)
Record exc := Exc { exc_cls : exc_class; exc_str : pystr }.

Definition is_import_error (e : exc) : bool :=
  match exc_cls e with ImportError => true | _ => false end.

Inductive result (A : Type) :=
  | Ok (a : A)
  | Raise (e : exc).
Arguments Ok {A} a.
Arguments Raise {A} e.

(** Code that reads and writes a state of type [S] and may raise; what was
    written before an exception stays written. *)
Definition st (S A : Type) : Type := S -> result A * S.

Class Monad (M : Type -> Type) := {
  ret : forall {A}, A -> M A;
  bind : forall {A B}, M A -> (A -> M B) -> M B
}.

#[export] Instance result_monad : Monad result := {|
  ret := @Ok;
  bind := fun A B m k => match m with Ok a => k a | Raise e => Raise e end
|}.

#[export] Instance st_monad (S : Type) : Monad (st S) := {|
  ret := fun A a s => (Ok a, s);
  bind := fun A B m k s =>
    match m s with
    | (Ok a, s') => k a s'
    | (Raise e, s') => (Raise e, s')
    end
|}.

Declare Scope py_scope.
Delimit Scope py_scope with py.
Notation "'let*' p ':=' c 'in' k" := (bind c (fun p => k))
  (at level 10, p pattern, c at level 200, k at level 200) : py_scope.
Open Scope py_scope.

Definition lift {S A} (r : result A) : st S A := fun s => (r, s).
Definition get {S} : st S S := fun s => (Ok s, s).
Definition modify {S} (f : S -> S) : st S unit := fun s => (Ok tt, f s).

(** [try: body except Exception as e: handler(e)] *)
Definition try_result {A} (body : result A) (handler : exc -> result A)
  : result A :=
  match body with Ok a => Ok a | Raise e => handler e end.

Definition try_except {S A} (body : st S A) (handler : exc -> st S A)
  : st S A :=
  fun s => match body s with
           | (Ok a, s') => (Ok a, s')
           | (Raise e, s') => handler e s'
           end.

(** A [for] loop whose body may raise. *)
Fixpoint foldM {A B} (f : A -> B -> result A) (a : A) (l : list B)
  : result A :=
  match l with
  | [] => Ok a
  | b :: l' => let* a' := f a b in foldM f a' l'
  end.

(** ** Python floats *)

Definition float := spec_float.
Definition prec : Z := 53.
Definition emax : Z := 1024.

(** The literals of the source, as the doubles they denote. *)
Definition f0_3 : float := S754_finite false 0x13333333333333 (-54).
Definition f0_6 : float := S754_finite false 0x13333333333333 (-53).
Definition f0_08 : float := S754_finite false 0x147ae147ae147b (-56).
Definition f0_04 : float := S754_finite false 0x147ae147ae147b (-57).
Definition f0_5 : float := S754_finite false 0x10000000000000 (-53).
Definition f2_0 : float := S754_finite false 0x10000000000000 (-51).

(** [float(n)] for an int [n]: nearest double, ties to even. *)
Definition float_of_int (n : Z) : result float :=
  match binary_normalize prec emax n 0 false with
  | S754_infinity _ =>
      Raise (Exc OverflowError (lit "int too large to convert to float"))
  | f => Ok f
  end.

(** [int(x)] for a float [x]: truncation toward zero. *)
Definition int_of_float (x : float) : result Z :=
  match x with
  | S754_zero _ => Ok 0
  | S754_finite s m e =>
      let mag := if 0 <=? e then Z.pos m * 2 ^ e else Z.pos m / 2 ^ (- e) in
      Ok (if s then - mag else mag)
  | S754_infinity _ =>
      Raise (Exc OverflowError (lit "cannot convert float infinity to integer"))
  | S754_nan =>
      Raise (Exc ValueError (lit "cannot convert float NaN to integer"))
  end.

(** [n * c] for an int [n] and a float [c]. *)
Definition int_times (n : Z) (c : float) : result float :=
  let* f := float_of_int n in Ok (SFmul prec emax f c).

(** [a / b] for ints: the correctly rounded quotient. *)
Definition int_truediv (a b : Z) : result float :=
  match a, b with
  | _, Z0 => Raise (Exc ZeroDivisionError (lit "division by zero"))
  | Z0, _ => Ok (S754_zero (b <? 0))
  | _, _ =>
      match SFdiv prec emax
              (S754_finite (a <? 0) (Z.to_pos (Z.abs a)) 0)
              (S754_finite (b <? 0) (Z.to_pos (Z.abs b)) 0) with
      | S754_infinity _ =>
          Raise (Exc OverflowError
                   (lit "integer division result too large for a float"))
      | q => Ok q
      end
  end.

(** [int(min(width, height) * c)], the shape of every size the
    synthesizer derives from the canvas. *)
Definition scaled (width height : Z) (c : float) : result Z :=
  let* x := int_times (Z.min width height) c in int_of_float x.

(** [range(radius, 0, -2)] *)
Definition range_down2 (radius : Z) : list Z :=
  map (fun i => radius - 2 * Z.of_nat i)
      (seq 0 (Z.to_nat ((radius + 1) / 2))).

(** ** Bytes *)

Definition byte_val (b : Byte.byte) : Z := Z.of_N (Byte.to_N b).

(** [int.from_bytes(bs, 'big')] *)
Definition int_from_bytes_big (bs : list Byte.byte) : Z :=
  fold_left (fun acc b => acc * 256 + byte_val b) bs 0.

Definition b64_alphabet : pystr :=
  lit "ABCDEFGHIJKLMNOPQRSTUVWXYZabcdefghijklmnopqrstuvwxyz0123456789+/".

Definition b64_digit (n : Z) : pychar :=
  nth (Z.to_nat (n mod 64)) b64_alphabet 0%N.

Definition b64_pad : pychar := N_of_ascii "=".

(** [base64.b64encode(bs).decode("utf-8")] *)
Fixpoint b64encode (bs : list Byte.byte) : pystr :=
  match bs with
  | [] => []
  | [a] =>
      let n := byte_val a * 65536 in
      [b64_digit (n / 262144); b64_digit (n / 4096); b64_pad; b64_pad]
  | [a; b] =>
      let n := byte_val a * 65536 + byte_val b * 256 in
      [b64_digit (n / 262144); b64_digit (n / 4096); b64_digit (n / 64);
       b64_pad]
  | a :: b :: c :: rest =>
      let n := byte_val a * 65536 + byte_val b * 256 + byte_val c in
      b64_digit (n / 262144) :: b64_digit (n / 4096) :: b64_digit (n / 64)
        :: b64_digit n :: b64encode rest
  end.

(** ** The world outside the process *)

(** What the handler asks of its collaborators, in order. *)
Inductive call :=
  | Synthesize (prompt : pystr) (width height : Z) (seed : option Z)
  | EncodePNG.

Record World := {
  entropy : nat -> Byte.byte;   (* the operating system's random source *)
  cursor : nat;                 (* how much of it has been read *)
  utcnow : pystr;               (* [datetime.utcnow().isoformat()] *)
  calls : list call             (* collaborator calls made so far *)
}.

Definition advance (n : nat) (w : World) : World :=
  {| entropy := entropy w; cursor := (cursor w + n)%nat;
     utcnow := utcnow w; calls := calls w |}.

Definition add_call (c : call) (w : World) : World :=
  {| entropy := entropy w; cursor := cursor w;
     utcnow := utcnow w; calls := calls w ++ [c] |}.

(** [os.urandom(n)] *)
Definition os_urandom (n : nat) : st World (list Byte.byte) :=
  fun w => (Ok (map (entropy w) (seq (cursor w) n)), advance n w).

Definition record (c : call) : st World unit := modify (add_call c).

(** ** Collaborators *)

(** [random.Random]: a generator object is its state; [randint] returns the
    integer drawn and the generator after the draw.  The laws are the
    documented contract of [randint(a, b)]: some [N] with [a <= N <= b],
    and a [ValueError] on an empty range. *)
Class PRNG := {
  rng : Type;
  Random : Z -> rng;
  os_seed_bytes : nat;
  Random_os : list Byte.byte -> rng;
  randint : rng -> Z -> Z -> result (Z * rng);
  randint_range : forall g a b, a <= b ->
    exists n g', randint g a b = Ok (n, g') /\ a <= n <= b;
  randint_empty : forall g a b, b < a ->
    exists msg, randint g a b = Raise (Exc ValueError msg)
}.

(** The C library's [pow], which [float.__pow__] calls. *)
Class Libm := { c_pow : float -> float -> float }.

(** The part of Pillow the synthesizer uses.  A drawing call returns the
    image it leaves behind; any call may raise.  Which font files can be
    opened is part of the implementation. *)
Class Pillow := {
  image : Type;
  font : Type;
  Image_new : string -> Z * Z -> list Z -> result image;
  ellipse : image -> Z * Z * Z * Z -> Z -> result image;
  putalpha : image -> image -> result image;
  paste : image -> image -> Z * Z -> image -> result image;
  GaussianBlur : image -> float -> result image;
  truetype : pystr -> Z -> result font;
  load_default : result font;
  multiline_textsize : image -> pystr -> font -> Z -> result (Z * Z);
  multiline_text :
    image -> Z * Z -> pystr -> font -> list Z -> Z -> pystr -> result image;
  save_png : image -> result (list Byte.byte)
}.

(** ** The synthesizer *)

Record blob := Blob { cx : Z; cy : Z; radius : Z; color : Z * Z * Z }.

(** The ranges the drawn values lie in: both ends included, the radius
    between the two bounds rounded down to integers. *)
Definition blob_in_range (width height : Z) (b : blob) : Prop :=
  let m := Z.min width height in
  0 <= cx b <= width
  /\ 0 <= cy b <= height
  /\ 3 * m / 10 <= radius b <= 6 * m / 10
  /\ let '(red, green, blue) := color b in
     80 <= red <= 180 /\ 80 <= green <= 180 /\ blue = 255.

(** The ranges as the specification gives them: the centre in the
    half-open canvas, the radius between 0.3 and 0.6 of the smaller side. *)
Definition blob_as_specified (width height : Z) (b : blob) : Prop :=
  let m := Z.min width height in
  0 <= cx b < width
  /\ 0 <= cy b < height
  /\ 3 * m <= 10 * radius b <= 6 * m
  /\ let '(red, green, blue) := color b in
     80 <= red <= 180 /\ 80 <= green <= 180 /\ blue = 255.

Section Synthesizer.
Context {R : PRNG} {L : Libm} {P : Pillow}.

(** [_get_font(size)] *)
Definition _get_font (size : Z) : result font :=
  try_result (truetype (lit "DejaVuSans.ttf") size)
    (fun _ => try_result (truetype (lit "arial.ttf") size)
                (fun _ => load_default)).

(** [random.Random(seed)] *)
Definition new_Random (seed : option Z) : st World rng :=
  match seed with
  | Some s => ret (Random s)
  | None => let* bs := os_urandom os_seed_bytes in ret (Random_os bs)
  end.

(** The four assignments that open the body of [for i in range(3)]. *)
Definition blob_params (width height : Z) (g : rng) : result (blob * rng) :=
  let* (cx, g) := randint g 0 width in
  let* (cy, g) := randint g 0 height in
  let* lo := scaled width height f0_3 in
  let* hi := scaled width height f0_6 in
  let* (radius, g) := randint g lo hi in
  let* (red, g) := randint g 80 180 in
  let* (green, g) := randint g 80 180 in
  Ok (Blob cx cy radius (red, green, 255), g).

(** What [blob_params] draws, call by call: the centre's two
    coordinates, the radius between the two scaled bounds, then red and
    green, each from the generator the previous draw left. *)
Definition drawn_in_order (width height : Z) (g : rng) (b : blob) (g' : rng)
  : Prop :=
  exists lo hi g1 g2 g3 g4 red green,
    randint g 0 width = Ok (cx b, g1)
    /\ randint g1 0 height = Ok (cy b, g2)
    /\ scaled width height f0_3 = Ok lo
    /\ scaled width height f0_6 = Ok hi
    /\ randint g2 lo hi = Ok (radius b, g3)
    /\ randint g3 80 180 = Ok (red, g4)
    /\ randint g4 80 180 = Ok (green, g')
    /\ color b = (red, green, 255).

(** [int(255 * (r / radius) ** 2)] *)
Definition glow_alpha (r radius : Z) : result Z :=
  let* q := int_truediv r radius in
  let* x := int_times 255 (c_pow q f2_0) in
  int_of_float x.

(** The rest of the loop body: mask, glow, paste. *)
Definition render_blob (img : image) (b : blob) : result image :=
  let radius := radius b in
  let '(red, green, blue) := color b in
  let* radial := Image_new "L" (radius * 2, radius * 2) [0] in
  let* radial :=
    foldM (fun radial r =>
             let* a := glow_alpha r radius in
             ellipse radial
               (radius - r, radius - r, radius + r, radius + r) a)
          radial (range_down2 radius) in
  let* glow :=
    Image_new "RGBA" (radius * 2, radius * 2) [red; green; blue; 0] in
  let* glow := putalpha glow radial in
  paste img glow (cx b - radius, cy b - radius) glow.

(** [for i in range(3): ...] *)
Definition glow_layer (width height : Z) (img : image) (g : rng)
  : result (image * rng) :=
  foldM (fun '(img, g) (_ : Z) =>
           let* (b, g) := blob_params width height g in
           let* img := render_blob img b in
           Ok (img, g))
        (img, g) [0; 1; 2].

(** The foreground card. *)
Definition card_layer (width height : Z) (img : image) : result image :=
  let* card_margin := scaled width height f0_08 in
  let card_box :=
    (card_margin, card_margin, width - card_margin, height - card_margin) in
  let '(x0, y0, x1, y1) := card_box in
  let* card := Image_new "RGBA" (x1 - x0, y1 - y0) [20; 24; 48; 180] in
  let* card := GaussianBlur card f0_5 in
  paste img card (x0, y0) card.

(** The prompt, wrapped and drawn twice. *)
Definition text_layer (prompt : pystr) (width height : Z) (img : image)
  : result image :=
  let* m := scaled width height f0_04 in
  let font_size := Z.max 18 m in
  let* font := _get_font font_size in
  let lines := Wrap.wrap_text prompt 32 in
  let text := py_join newline lines in
  let* (tw, th) := multiline_textsize img text font 8 in
  let tx := (width - tw) / 2 in
  let ty := (height - th) / 2 in
  let* img :=
    multiline_text img (tx + 2, ty + 2) text font [0; 0; 0; 255] 8
      (lit "center") in
  multiline_text img (tx, ty) text font [230; 240; 255; 255] 8
    (lit "center").

(** Everything after [rnd = random.Random(seed)]. *)
Definition render (prompt : pystr) (width height : Z) (g : rng)
  : result image :=
  let* img := Image_new "RGB" (width, height) [10; 12; 26] in
  let* (img, _) := glow_layer width height img g in
  let* img := card_layer width height img in
  text_layer prompt width height img.

(** [_generate_placeholder_image(prompt, width, height, seed)] *)
Definition _generate_placeholder_image
    (prompt : pystr) (width height : Z) (seed : option Z) : st World image :=
  let* rnd := new_Random seed in
  lift (render prompt width height rnd).

End Synthesizer.

(** ** The request and response models *)

Module GenerateRequest.
Record t := Build {
  prompt : pystr;
  width : Z;
  height : Z;
  seed : option Z
}.
End GenerateRequest.

Module GenerateResponse.
Record t := Build {
  image_base64 : pystr;
  mime_type : pystr;
  width : Z;
  height : Z;
  prompt : pystr;
  seed : Z;
  generated_at : pystr
}.
End GenerateResponse.

(** The JSON body of a request, before validation: each field is present
    or not. *)
Record body := Body {
  body_prompt : option pystr;
  body_width : option Z;
  body_height : option Z;
  body_seed : option Z
}.

(** [Field(..., min_length=, max_length=)]: a required string. *)
Definition Field_str (min_length max_length : Z) (v : option pystr)
  : option pystr :=
  match v with
  | Some s =>
      if (min_length <=? len s) && (len s <=? max_length) then Some s
      else None
  | None => None
  end.

(** [Field(default, ge=, le=)]: an integer with a default. *)
Definition Field_int (default ge le : Z) (v : option Z) : option Z :=
  match v with
  | Some n => if (ge <=? n) && (n <=? le) then Some n else None
  | None => Some default
  end.

Definition field_error {A} (name : string) (v : option A) : list string :=
  match v with Some _ => [] | None => [name] end.

(** Validation of a body against [GenerateRequest]: the request, or the
    names of the fields that failed. *)
Definition validate (b : body) : GenerateRequest.t + list string :=
  let prompt := Field_str 2 280 (body_prompt b) in
  let width := Field_int 768 256 1024 (body_width b) in
  let height := Field_int 768 256 1024 (body_height b) in
  match prompt, width, height with
  | Some p, Some w, Some h =>
      inl (GenerateRequest.Build p w h (body_seed b))
  | _, _, _ =>
      inr (field_error "prompt" prompt ++ field_error "width" width
             ++ field_error "height" height)
  end.

(** ** The generate handler *)

(** How a handler ends: it returns its response model or raises
    [HTTPException]. *)
Inductive outcome :=
  | Returns (r : GenerateResponse.t)
  | HTTPException (status_code : Z) (detail : pystr).

Inductive http_content :=
  | Image (r : GenerateResponse.t)
  | Detail (detail : pystr)
  | ValidationErrors (fields : list string).

Record http_response := Http { status : Z; content : http_content }.

(** Two outcomes that show the client the same picture: the same
    response up to its timestamp, or the same error. *)
Definition same_picture (o1 o2 : outcome) : Prop :=
  match o1, o2 with
  | Returns r1, Returns r2 =>
      GenerateResponse.image_base64 r1 = GenerateResponse.image_base64 r2
      /\ GenerateResponse.mime_type r1 = GenerateResponse.mime_type r2
      /\ GenerateResponse.width r1 = GenerateResponse.width r2
      /\ GenerateResponse.height r1 = GenerateResponse.height r2
      /\ GenerateResponse.prompt r1 = GenerateResponse.prompt r2
      /\ GenerateResponse.seed r1 = GenerateResponse.seed r2
  | HTTPException c1 d1, HTTPException c2 d2 => c1 = c2 /\ d1 = d2
  | _, _ => False
  end.

Section Handler.
Context {R : PRNG} {L : Libm} {P : Pillow}.

(** [req.seed if req.seed is not None else
     int.from_bytes(os.urandom(4), 'big')] *)
Definition resolve_seed (seed : option Z) : st World Z :=
  match seed with
  | Some s => ret s
  | None => let* bs := os_urandom 4 in ret (int_from_bytes_big bs)
  end.

(** The body of the [try] block. *)
Definition generate_image_try (req : GenerateRequest.t)
  : st World GenerateResponse.t :=
  let prompt := GenerateRequest.prompt req in
  let width := GenerateRequest.width req in
  let height := GenerateRequest.height req in
  let* seed := resolve_seed (GenerateRequest.seed req) in
  let* _ := record (Synthesize prompt width height (Some seed)) in
  let* img := _generate_placeholder_image prompt width height (Some seed) in
  let* _ := record EncodePNG in
  let* png := lift (save_png img) in
  let b64 := b64encode png in
  let* w := get in
  ret (GenerateResponse.Build b64 (lit "image/png") width height prompt seed
         (utcnow w ++ lit "Z")).

(** [generate_image(req)] *)
Definition generate_image (req : GenerateRequest.t) (w : World)
  : outcome * World :=
  match generate_image_try req w with
  | (Ok r, w') => (Returns r, w')
  | (Raise e, w') =>
      (HTTPException 500 (lit "Generation failed: " ++ exc_str e), w')
  end.

(** The seed a request resolves to in a world, and the world after the
    resolution. *)
Definition resolved (req : GenerateRequest.t) (w : World) : Z * World :=
  match GenerateRequest.seed req with
  | Some s => (s, w)
  | None =>
      (int_from_bytes_big (map (entropy w) (seq (cursor w) 4)), advance 4 w)
  end.

(** [POST /api/generate] as the framework serves it: validation first,
    then the handler; an [HTTPException] becomes a response with its
    status code and detail. *)
Definition post_generate (b : body) (w : World) : http_response * World :=
  match validate b with
  | inr fields => (Http 422 (ValidationErrors fields), w)
  | inl req =>
      match generate_image req w with
      | (Returns r, w') => (Http 200 (Image r), w')
      | (HTTPException code detail, w') => (Http code (Detail detail), w')
      end
  end.

End Handler.

(** ** The diagnostics handler *)

Inductive value :=
  | VNone
  | VStr (s : pystr)
  | VList (l : list pystr).

(** Reading an attribute that may be absent or may raise. *)
Inductive attr :=
  | NoAttr
  | HasAttr (v : value)
  | AttrRaises (e : exc).

Record database_handle := {
  db_name : attr;
  list_collection_names : result (list pystr)
}.

(** [from database import db] *)
Inductive import_outcome :=
  | ImportRaises (e : exc)
  | Imported (db : option database_handle).

Record Environment := {
  import_db : import_outcome;
  getenv : string -> option pystr
}.

Definition check_mark : pystr := [0x2705%N].
Definition cross_mark : pystr := [0x274c%N].
Definition warning_sign : pystr := [0x26a0%N; 0xfe0f%N].

Definition truthy (v : option pystr) : bool :=
  match v with Some (_ :: _) => true | _ => false end.

Module Diagnostics.

Definition setitem (k : string) (v : value) : st (gmap string value) unit :=
  modify (fun response => <[k := v]> response).

Definition response0 : gmap string value :=
  <["backend" := VStr (check_mark ++ lit " Running")]>
  (<["database" := VStr (cross_mark ++ lit " Not Available")]>
  (<["database_url" := VNone]>
  (<["database_name" := VNone]>
  (<["connection_status" := VStr (lit "Not Connected")]>
  (<["collections" := VList []]> ∅))))).

(** [db.name if hasattr(db, 'name') else ...] *)
Definition name_or (db : database_handle) (default : value) : result value :=
  match db_name db with
  | NoAttr => Ok default
  | HasAttr v => Ok v
  | AttrRaises e => Raise e
  end.

(** The body of the outer [try]. *)
Definition probe (env : Environment) : st (gmap string value) unit :=
  let* db := lift (match import_db env with
                   | ImportRaises e => Raise e
                   | Imported db => Ok db
                   end) in
  match db with
  | Some db =>
      let* _ := setitem "database" (VStr (check_mark ++ lit " Available")) in
      let* _ :=
        setitem "database_url" (VStr (check_mark ++ lit " Configured")) in
      let* name := lift (name_or db (VStr (check_mark ++ lit " Connected"))) in
      let* _ := setitem "database_name" name in
      let* _ := setitem "connection_status" (VStr (lit "Connected")) in
      try_except
        (let* collections := lift (list_collection_names db) in
         let* _ := setitem "collections" (VList (slice_to 10 collections)) in
         setitem "database"
           (VStr (check_mark ++ lit " Connected & Working")))
        (fun e =>
           setitem "database"
             (VStr (warning_sign ++ lit "  Connected but Error: "
                      ++ slice_to 50 (exc_str e))))
  | None =>
      setitem "database"
        (VStr (warning_sign ++ lit "  Available but not initialized"))
  end.

Definition set_or_not (v : option pystr) : value :=
  if truthy v then VStr (check_mark ++ lit " Set")
  else VStr (cross_mark ++ lit " Not Set").

(** [test_database()] *)
Definition test_database (env : Environment) : result (gmap string value) :=
  fst ((let* _ :=
          try_except (probe env)
            (fun e =>
               if is_import_error e
               then setitem "database"
                      (VStr (cross_mark ++ lit " Database module not found (run enable-database first)"))
               else setitem "database"
                      (VStr (cross_mark ++ lit " Error: "
                               ++ slice_to 50 (exc_str e)))) in
        let* _ := setitem "database_url" (set_or_not (getenv env "DATABASE_URL")) in
        let* _ :=
          setitem "database_name" (set_or_not (getenv env "DATABASE_NAME")) in
        get) response0).

End Diagnostics.

(** ** Concrete collaborators

    Implementations of the three interfaces, on which the handlers can be
    run: CPython's own generator, a [pow] that squares, and a Pillow that
    records what was drawn. *)

(** CPython's [random.Random]: the Mersenne Twister of
    [_randommodule.c] with the seeding and the integer draws of
    [random.py]. *)
Module MT19937.

(** Arithmetic on [uint32_t] wraps. *)
Definition u32 (x : Z) : Z := x mod 2 ^ 32.

Definition word (mt : list Z) (i : nat) : Z := nth i mt 0.

(** [init_genrand(s)]: the words after the first. *)
Fixpoint init_genrand_from (prev : Z) (mti : nat) (n : nat) : list Z :=
  match n with
  | O => []
  | S n' =>
      let x := u32 (1812433253 * Z.lxor prev (Z.shiftr prev 30)
                    + Z.of_nat mti) in
      x :: init_genrand_from x (S mti) n'
  end.

Definition init_genrand (s : Z) : list Z :=
  u32 s :: init_genrand_from (u32 s) 1 623.

(** The index wrap shared by the two loops of [init_by_array]. *)
Definition wrap_index (mt : list Z) (i : nat) : list Z * nat :=
  if (624 <=? i)%nat then (<[0%nat := word mt 623]> mt, 1%nat) else (mt, i).

(** First loop of [init_by_array]: [k] rounds mixing in the key. *)
Fixpoint mix_key (init_key : list Z) (k : nat) (mt : list Z) (i j : nat)
  : list Z * nat :=
  match k with
  | O => (mt, i)
  | S k' =>
      let prev := word mt (i - 1) in
      let x := u32 (Z.lxor (word mt i)
                      (Z.lxor prev (Z.shiftr prev 30) * 1664525)
                    + word init_key j + Z.of_nat j) in
      let '(mt, i) := wrap_index (<[i := x]> mt) (S i) in
      let j := if (length init_key <=? S j)%nat then 0%nat else S j in
      mix_key init_key k' mt i j
  end.

(** Second loop of [init_by_array]. *)
Fixpoint mix_index (k : nat) (mt : list Z) (i : nat) : list Z :=
  match k with
  | O => mt
  | S k' =>
      let prev := word mt (i - 1) in
      let x := u32 (Z.lxor (word mt i)
                      (Z.lxor prev (Z.shiftr prev 30) * 1566083941)
                    - Z.of_nat i) in
      let '(mt, i) := wrap_index (<[i := x]> mt) (S i) in
      mix_index k' mt i
  end.

(** [init_by_array(init_key, key_length)] *)
Definition init_by_array (init_key : list Z) : list Z :=
  let mt := init_genrand 19650218 in
  let '(mt, i) :=
    mix_key init_key (Nat.max 624 (length init_key)) mt 1 0 in
  let mt := mix_index 623 mt i in
  <[0%nat := 0x80000000]> mt.

(** The 32-bit digits of a non-negative int, least significant first; at
    least one digit. *)
Fixpoint digits32 (fuel : nat) (n : Z) : list Z :=
  match fuel with
  | O => [u32 n]
  | S fuel' =>
      if n <? 2 ^ 32 then [n] else u32 n :: digits32 fuel' (n / 2 ^ 32)
  end.

Record generator := Generator { mt : list Z; index : nat }.

(** [random.Random(seed)] for an int seed: the key is [abs(seed)]. *)
Definition seed (a : Z) : generator :=
  let n := Z.abs a in
  Generator (init_by_array (digits32 (Z.to_nat (Z.log2 n / 32)) n)) 624.

(** Regenerate the 624 words in place. *)
Definition twist (mt : list Z) : list Z :=
  fold_left
    (fun mt kk =>
       let y := Z.lor (Z.land (word mt kk) 0x80000000)
                      (Z.land (word mt ((kk + 1) mod 624)) 0x7fffffff) in
       let mag := if Z.odd y then 0x9908b0df else 0 in
       <[kk := Z.lxor (Z.lxor (word mt ((kk + 397) mod 624)) (Z.shiftr y 1))
                 mag]> mt)
    (seq 0 624) mt.

Definition temper (y : Z) : Z :=
  let y := Z.lxor y (Z.shiftr y 11) in
  let y := Z.lxor y (Z.land (u32 (Z.shiftl y 7)) 0x9d2c5680) in
  let y := Z.lxor y (Z.land (u32 (Z.shiftl y 15)) 0xefc60000) in
  Z.lxor y (Z.shiftr y 18).

(** [genrand_uint32] *)
Definition genrand_uint32 (g : generator) : Z * generator :=
  let g := if (624 <=? index g)%nat then Generator (twist (mt g)) 0 else g in
  (u32 (temper (word (mt g) (index g))), Generator (mt g) (S (index g))).

(** [getrandbits(k)] for [k > 0], word by word, least significant first. *)
Fixpoint getrandbits_words (words : nat) (k : Z) (g : generator)
  : Z * generator :=
  match words with
  | O => (0, g)
  | S words' =>
      let '(r, g) := genrand_uint32 g in
      let r := if k <? 32 then Z.shiftr r (32 - k) else r in
      let '(rest, g) := getrandbits_words words' (k - 32) g in
      (r + 2 ^ 32 * rest, g)
  end.

Definition getrandbits (k : Z) (g : generator) : Z * generator :=
  getrandbits_words (Z.to_nat ((k - 1) / 32 + 1)) k g.

(** [_randbelow(n)]: draw [n.bit_length()] bits until the value is below
    [n].  The loop is cut at [fuel] rounds, after which the last value is
    reduced modulo [n]. *)
Fixpoint randbelow (fuel : nat) (n : Z) (g : generator) : Z * generator :=
  let k := Z.log2 n + 1 in
  let '(r, g) := getrandbits k g in
  if r <? n then (r, g)
  else match fuel with
       | O => (r mod n, g)
       | S fuel' => randbelow fuel' n g
       end.

(** [randint(a, b)], which is [randrange(a, b + 1)]. *)
Definition randint (g : generator) (a b : Z) : result (Z * generator) :=
  let width := b + 1 - a in
  if 0 <? width
  then let '(r, g) := randbelow 128 width g in Ok (a + r, g)
  else Raise (Exc ValueError
                (lit "empty range for randrange() (" ++ str_of_int a
                   ++ lit ", " ++ str_of_int (b + 1) ++ lit ", "
                   ++ str_of_int width ++ lit ")")).

(** The 32-bit words of a byte string, each least significant byte
    first. *)
Fixpoint words_le (bs : list Byte.byte) : list Z :=
  match bs with
  | b0 :: b1 :: b2 :: b3 :: rest =>
      (byte_val b0 + 2 ^ 8 * byte_val b1 + 2 ^ 16 * byte_val b2
       + 2 ^ 24 * byte_val b3) :: words_le rest
  | _ => []
  end.

(** [random.Random()] without a seed: the key is read from the operating
    system's random source. *)
Definition seed_os (bs : list Byte.byte) : generator :=
  Generator (init_by_array (words_le bs)) 624.

End MT19937.

(** [pow] by one rounded multiplication, exact for the exponent 2. *)
Module Square.
#[export] Instance libm : Libm := {| c_pow := fun x _ => SFmul prec emax x x |}.
End Square.

(** A Pillow whose images are the expressions that drew them.  With
    [broken = Some msg] no image can be allocated: [Image.new] raises with
    that message. *)
Module Canvas.

Inductive picture :=
  | New (mode : string) (size : Z * Z) (fill : list Z)
  | Ellipse (on : picture) (box : Z * Z * Z * Z) (fill : Z)
  | PutAlpha (on mask : picture)
  | Paste (on src : picture) (at_ : Z * Z) (mask : picture)
  | Blur (on : picture) (r : float)
  | Text (on : picture) (at_ : Z * Z) (text : pystr) (face : pystr)
         (size : Z) (fill : list Z) (spacing : Z) (align : pystr).

(** How many drawing calls made the picture. *)
Fixpoint weight (p : picture) : N :=
  match p with
  | New _ _ _ => 1
  | Ellipse on _ _ => 1 + weight on
  | PutAlpha on mask => 1 + weight on + weight mask
  | Paste on src _ mask => 1 + weight on + weight src
  | Blur on _ => 1 + weight on
  | Text on _ _ _ _ _ _ _ => 1 + weight on
  end.

Definition png_signature : list Byte.byte :=
  [Byte.x89; Byte.x50; Byte.x4e; Byte.x47].

Definition pillow (broken : option pystr) : Pillow := {|
  image := picture;
  font := pystr * Z;
  Image_new := fun mode size fill =>
    match broken with
    | Some msg => Raise (Exc (OtherException "MemoryError") msg)
    | None => Ok (New mode size fill)
    end;
  ellipse := fun img box fill => Ok (Ellipse img box fill);
  putalpha := fun img mask => Ok (PutAlpha img mask);
  paste := fun img src at_ mask => Ok (Paste img src at_ mask);
  GaussianBlur := fun img r => Ok (Blur img r);
  truetype := fun name size =>
    if decide (name = lit "DejaVuSans.ttf") then Ok (name, size)
    else Raise (Exc (OtherException "OSError")
                  (lit "cannot open resource"));
  load_default := Ok (lit "default", 10);
  multiline_textsize := fun img text face spacing =>
    Ok (8 * len text, 16 + spacing);
  multiline_text := fun img at_ text face fill spacing align =>
    Ok (Text img at_ text (fst face) (snd face) fill spacing align);
  save_png := fun img =>
    Ok (png_signature
          ++ match Byte.of_N (weight img mod 256) with
             | Some b => [b]
             | None => []
             end)
|}.

Definition working : Pillow := pillow None.
Definition broken (msg : pystr) : Pillow := pillow (Some msg).

End Canvas.

(** A world in which the operating system's random source yields the
    bytes 0, 1, 2, ... *)
Definition counting_world : World := {|
  entropy := fun i =>
    match Byte.of_N (N.of_nat i mod 256) with
    | Some b => b
    | None => Byte.x00
    end;
  cursor := 0;
  utcnow := lit "2024-01-01T00:00:00";
  calls := []
|}.

(** ** Auxiliary statements and sample inputs *)

(** Whether the two radius bounds computed in floating point are the
    rounded-down tenths for a smaller side [m]. *)
Definition radius_bounds_exact (m : Z) : bool :=
  match scaled m m f0_3, scaled m m f0_6 with
  | Ok lo, Ok hi => (lo =? 3 * m / 10) && (hi =? 6 * m / 10)
  | _, _ => false
  end.

(** What makes a body fail validation. *)
Definition out_of_bounds (b : body) : Prop :=
  match body_prompt b with
  | Some p => len p < 2 \/ 280 < len p
  | None => True
  end
  \/ match body_width b with
     | Some n => n < 256 \/ 1024 < n
     | None => False
     end
  \/ match body_height b with
     | Some n => n < 256 \/ 1024 < n
     | None => False
     end.

(** The status the diagnostics handler reports when the module is
    missing. *)
Definition not_found : pystr :=
  cross_mark ++ lit " Database module not found (run enable-database first)".

(** The texts the diagnostics handler writes into [database]: for an
    exception caught by the outer [except Exception], for one caught
    around the listing, for a handle that is [None], and for a handle
    that answered. *)
Definition error_text (e : exc) : pystr :=
  cross_mark ++ lit " Error: " ++ slice_to 50 (exc_str e).
Definition listing_error_text (e : exc) : pystr :=
  warning_sign ++ lit "  Connected but Error: " ++ slice_to 50 (exc_str e).
Definition uninitialized_text : pystr :=
  warning_sign ++ lit "  Available but not initialized".
Definition working_text : pystr := check_mark ++ lit " Connected & Working".

(** A word as [str.split()] yields them: at least one character, none of
    them a separator. *)
Definition is_word (w : pystr) : Prop :=
  w <> [] /\ Forall (fun c => py_isspace c = false) w.

(** The import gave a handle and its name could be read (or it has
    none). *)
Definition handle_named (env : Environment) : Prop :=
  exists db, import_db env = Imported (Some db)
             /\ forall e, db_name db <> AttrRaises e.

(** Whether the card margin and the font measure computed in floating
    point are the rounded-down exact products for a smaller side [m]. *)
Definition card_font_exact (m : Z) : bool :=
  match scaled m m f0_08, scaled m m f0_04 with
  | Ok margin, Ok size => (margin =? 8 * m / 100) && (size =? 4 * m / 100)
  | _, _ => false
  end.

(** Equality of floats as values of [spec_float]. *)
Definition float_eqb (x y : float) : bool :=
  match x, y with
  | S754_zero s, S754_zero s' => Bool.eqb s s'
  | S754_infinity s, S754_infinity s' => Bool.eqb s s'
  | S754_nan, S754_nan => true
  | S754_finite s m e, S754_finite s' m' e' =>
      Bool.eqb s s' && Pos.eqb m m' && Z.eqb e e'
  | _, _ => false
  end.

(** Whether [r / r] is the float 1 for an int [r]. *)
Definition unit_ratio (r : Z) : bool :=
  match int_truediv r r with
  | Ok q => float_eqb q (S754_finite false 0x10000000000000 (-52))
  | Raise _ => false
  end.

(** The float 1.0. *)
Definition f1_0 : float := S754_finite false 0x10000000000000 (-52).

(** A word of 33 characters. *)
Definition long_word : pystr := lit "abcdefghijklmnopqrstuvwxyz0123456".

(** The blob of a round of draws, if the round succeeded. *)
Definition drawn {R : PRNG} (r : result (blob * rng)) : option blob :=
  match r with Ok (b, _) => Some b | Raise _ => None end.

(** A small valid request. *)
Definition cat_request (seed : option Z) : GenerateRequest.t :=
  GenerateRequest.Build (lit "A cat") 256 256 seed.

(** * Properties *)

(** ** Python strings and the text wrapper *)

Lemma len_app {A} (s t : list A) : len (s ++ t) = len s + len t.
Proof. unfold len. rewrite length_app. lia. Qed.

Lemma len_nonneg {A} (s : list A) : 0 <= len s.
Proof. unfold len. lia. Qed.

Lemma py_join_cons sep w ws :
  ws <> [] -> py_join sep (w :: ws) = w ++ sep ++ py_join sep ws.
Proof. destruct ws; [congruence | reflexivity]. Qed.

(** Splitting a text of separators only yields no word. *)
Lemma split_from_spaces text :
  Forall (fun c => py_isspace c = true) text -> split_from [] text = [].
Proof.
  induction 1 as [| c text Hc _ IH]; simpl; [reflexivity |].
  rewrite Hc. exact IH.
Qed.

Module WrapFacts.
Import Wrap.

Lemma sum_len_snoc l w : sum_len (l ++ [w]) = sum_len l + len w.
Proof.
  induction l as [| x l IH]; simpl; [lia |]. rewrite IH. lia.
Qed.

(** The test of the loop measures the line that would result: word
    lengths plus one separator between neighbours. *)
Lemma len_join_snoc cur w :
  len (py_join space (cur ++ [w])) = sum_len cur + len cur + len w.
Proof.
  induction cur as [| x cur IH].
  - unfold len. simpl. lia.
  - change ((x :: cur) ++ [w]) with (x :: (cur ++ [w])).
    rewrite py_join_cons by (destruct cur; discriminate).
    rewrite !len_app, IH. change (len space) with 1.
    simpl. unfold len. simpl. lia.
Qed.

Lemma flush_fold max ws : forall ls cur,
  flush (fold_left (step max) ws (State ls cur)) = ls ++ greedy max cur ws.
Proof.
  induction ws as [| w ws IH]; intros ls cur.
  - unfold flush. simpl. destruct cur; [by rewrite app_nil_r | reflexivity].
  - simpl fold_left. unfold step at 2. simpl lines. simpl line.
    rewrite <- len_join_snoc. simpl greedy.
    destruct (len (py_join space (cur ++ [w])) >? max).
    + rewrite IH. by rewrite <- app_assoc.
    + apply IH.
Qed.

Lemma wrap_lines_greedy text max :
  wrap_lines text max = greedy max [] (py_split text).
Proof. unfold wrap_lines. by rewrite flush_fold. Qed.

Lemma greedy_as_groups max ws : forall cur,
  greedy max cur ws = map (py_join space) (greedy_groups max cur ws).
Proof.
  induction ws as [| w ws IH]; intros cur; simpl.
  - by destruct cur.
  - destruct (_ >? _); simpl; by rewrite IH.
Qed.

Lemma concat_greedy_groups max ws : forall cur,
  concat (greedy_groups max cur ws) = cur ++ ws.
Proof.
  induction ws as [| w ws IH]; intros cur; simpl.
  - destruct cur; simpl; by rewrite ?app_nil_r.
  - destruct (_ >? _); simpl; rewrite IH; [reflexivity |].
    by rewrite <- app_assoc.
Qed.

Lemma groups_nonempty max ws : forall cur,
  cur <> [] -> Forall (fun g => g <> []) (greedy_groups max cur ws).
Proof.
  induction ws as [| w ws IH]; intros cur Hcur; simpl.
  - destruct cur; [congruence |]. by constructor.
  - destruct (_ >? _).
    + constructor; [exact Hcur |]. by apply IH.
    + apply IH. by destruct cur.
Qed.

(** Only the first line can have no word. *)
Lemma groups_tail_nonempty max ws :
  Forall (fun g => g <> []) (drop 1 (greedy_groups max [] ws)).
Proof.
  destruct ws as [| w ws]; simpl; [constructor |].
  destruct (_ >? _).
  - simpl. rewrite drop_0. by apply groups_nonempty.
  - apply Forall_drop. by apply groups_nonempty.
Qed.

Lemma concat_nonempty {A} (gs : list (list A)) :
  gs <> [] -> Forall (fun g => g <> []) gs -> concat gs <> [].
Proof.
  destruct gs as [| g gs]; [congruence |].
  intros _ Hall. inversion Hall as [| ? ? Hg _]; subst.
  simpl. destruct g; [congruence | discriminate].
Qed.

(** After any iteration the current line holds at least one word: it is
    empty only before the first word. *)
Lemma step_line_nonempty max st w : line (step max st w) <> [].
Proof.
  unfold step. destruct (_ >? _); cbn [line]; [discriminate |].
  by destruct (line st).
Qed.

Lemma greedy_cons max cur w ws :
  greedy max cur (w :: ws)
  = if sum_len cur + len cur + len w >? max
    then py_join space cur :: greedy max [w] ws
    else greedy max (cur ++ [w]) ws.
Proof. cbn [greedy]. by rewrite len_join_snoc. Qed.

(** Resolve the test of the wrapper's conditional once it is known to
    hold. *)
Ltac overflow :=
  match goal with
  | |- context [if ?c then _ else _] =>
      let E := fresh "E" in
      assert (E : c = true)
        by (apply Z.gtb_lt; simpl; unfold len in *; simpl; lia);
      rewrite E; clear E
  end.

Lemma greedy_overlong max w rest :
  max < len w ->
  exists more, greedy max [] (w :: rest) = [] :: w :: more.
Proof.
  intros Hlong. rewrite greedy_cons. overflow.
  destruct rest as [| w2 rest].
  - by exists [].
  - rewrite greedy_cons. pose proof (len_nonneg w2). overflow.
    eexists. reflexivity.
Qed.

End WrapFacts.

(** C3. Every line the wrapper returns is the words of a run of
    consecutive input words joined by single spaces, the runs following
    one another in the input's order; and the runs are cut greedily: the
    loop's test is the length of the current line with the next word
    joined to it, and the wrapper computes what the specification's greedy
    filling computes, cut to six lines. *)
Theorem wrap_text_greedy (text : pystr) (max_chars : Z) :
  (forall cur w,
      (Wrap.sum_len cur + len cur + len w >? max_chars)
      = (len (py_join space (cur ++ [w])) >? max_chars))
  /\ Wrap.wrap_text text max_chars
     = take 6 (Wrap.greedy max_chars [] (py_split text))
  /\ exists (groups : list (list pystr)) (dropped : list pystr),
       Wrap.wrap_text text max_chars = map (py_join space) groups
       /\ concat groups ++ dropped = py_split text.
Proof.
  split; [| split].
  - intros cur w. by rewrite WrapFacts.len_join_snoc.
  - unfold Wrap.wrap_text, slice_to.
    by rewrite WrapFacts.wrap_lines_greedy.
  - set (gs := Wrap.greedy_groups max_chars [] (py_split text)).
    exists (take 6 gs), (concat (drop 6 gs)). split.
    + unfold Wrap.wrap_text, slice_to.
      rewrite WrapFacts.wrap_lines_greedy, WrapFacts.greedy_as_groups.
      fold gs. apply firstn_map.
    + rewrite <- concat_app, take_drop. unfold gs.
      by rewrite WrapFacts.concat_greedy_groups.
Qed.

(** C4. The wrapper is a total function (one result for every input); a
    text without words gives no line; the result never has more than six
    lines; it is the first six lines of the untruncated wrapping, and when
    that has more than six lines exactly six are kept and the words of the
    others, of which there is at least one, are dropped. *)
Theorem wrap_text_truncates (text : pystr) (max_chars : Z) :
  (exists ls, Wrap.wrap_text text max_chars = ls
              /\ forall ls', Wrap.wrap_text text max_chars = ls' -> ls' = ls)
  /\ (Forall (fun c => py_isspace c = true) text ->
      Wrap.wrap_text text max_chars = [])
  /\ (length (Wrap.wrap_text text max_chars) <= 6)%nat
  /\ Wrap.wrap_text text max_chars = take 6 (Wrap.wrap_lines text max_chars)
  /\ ((6 < length (Wrap.wrap_lines text max_chars))%nat ->
      length (Wrap.wrap_text text max_chars) = 6%nat
      /\ exists (groups : list (list pystr)) (dropped : list pystr),
           Wrap.wrap_text text max_chars = map (py_join space) groups
           /\ concat groups ++ dropped = py_split text
           /\ dropped <> []).
Proof.
  split; [| split; [| split; [| split]]].
  - eexists. split; [reflexivity | congruence].
  - intros Hsp. unfold Wrap.wrap_text, Wrap.wrap_lines, py_split.
    by rewrite split_from_spaces.
  - unfold Wrap.wrap_text, slice_to. rewrite length_take. lia.
  - reflexivity.
  - intros Hlong. split.
    + unfold Wrap.wrap_text, slice_to. rewrite length_take. lia.
    + set (gs := Wrap.greedy_groups max_chars [] (py_split text)).
      assert (Hlines : Wrap.wrap_lines text max_chars
                       = map (py_join space) gs).
      { by rewrite WrapFacts.wrap_lines_greedy, WrapFacts.greedy_as_groups. }
      exists (take 6 gs), (concat (drop 6 gs)). split; [| split].
      * unfold Wrap.wrap_text, slice_to. rewrite Hlines. apply firstn_map.
      * rewrite <- concat_app, take_drop. unfold gs.
        by rewrite WrapFacts.concat_greedy_groups.
      * rewrite Hlines, length_map in Hlong.
        apply WrapFacts.concat_nonempty.
        -- intros Hnil. apply (f_equal length) in Hnil.
           rewrite length_drop in Hnil. simpl in Hnil. lia.
        -- change 6%nat with (1 + 5)%nat. rewrite <- drop_drop.
           apply Forall_drop, WrapFacts.groups_tail_nonempty.
Qed.

(** C9. The current line is empty only before the first word.  When that
    word is longer than the maximum width, the wrapper's first line is the
    empty string and its second line is that word alone, longer than the
    maximum: the output contains an empty line and a line over the
    maximum. *)
Theorem wrap_text_overlong_word (text : pystr) (max_chars : Z)
    (w : pystr) (rest : list pystr) :
  py_split text = w :: rest ->
  max_chars < len w ->
  (forall st w', Wrap.line (Wrap.step max_chars st w') <> [])
  /\ (exists more, Wrap.wrap_text text max_chars = [] :: w :: more)
  /\ In [] (Wrap.wrap_text text max_chars)
  /\ exists l, In l (Wrap.wrap_text text max_chars) /\ max_chars < len l.
Proof.
  intros Hsplit Hlong.
  split; [intros st w'; apply WrapFacts.step_line_nonempty |].
  assert (Hw : exists more, Wrap.wrap_text text max_chars = [] :: w :: more).
  { unfold Wrap.wrap_text, slice_to.
    rewrite WrapFacts.wrap_lines_greedy, Hsplit.
    destruct (WrapFacts.greedy_overlong max_chars w rest Hlong) as [more ->].
    simpl. by eexists. }
  destruct Hw as [more Hw]. split; [by exists more |].
  rewrite Hw. split; [by left |].
  exists w. split; [right; by left | exact Hlong].
Qed.

(** A first word of 33 characters at the synthesizer's width of 32. *)
Lemma wrap_text_overlong_word_witness :
  (exists more, Wrap.wrap_text (long_word ++ lit " cat") 32
                = [] :: long_word :: more)
  /\ In [] (Wrap.wrap_text (long_word ++ lit " cat") 32)
  /\ exists l, In l (Wrap.wrap_text (long_word ++ lit " cat") 32) /\ 32 < len l.
Proof.
  apply (wrap_text_overlong_word (long_word ++ lit " cat") 32
           long_word [lit "cat"]).
  - reflexivity.
  - reflexivity.
Defined.

(** Blank text gives no line; eight one-letter words at width 1 give
    six lines. *)
Lemma wrap_text_truncates_witness :
  Wrap.wrap_text (lit "  ") 32 = []
  /\ length (Wrap.wrap_text (lit "a b c d e f g h") 1) = 6%nat.
Proof.
  split.
  - destruct (wrap_text_truncates (lit "  ") 32) as (_ & Hnone & _).
    apply Hnone. repeat constructor.
  - destruct (wrap_text_truncates (lit "a b c d e f g h") 1)
      as (_ & _ & _ & _ & Hlong).
    apply Hlong. vm_compute. lia.
Defined.

(** ** The synthesizer *)

Lemma radius_bounds_checked :
  forallb radius_bounds_exact (map Z.of_nat (seq 0 1025)) = true.
Proof. vm_compute. reflexivity. Qed.

Lemma scaled_min width height c :
  scaled width height c
  = scaled (Z.min width height) (Z.min width height) c.
Proof. unfold scaled. by rewrite Z.min_id. Qed.

Lemma radius_bounds width height :
  0 <= width <= 1024 -> 0 <= height <= 1024 ->
  scaled width height f0_3 = Ok (3 * Z.min width height / 10)
  /\ scaled width height f0_6 = Ok (6 * Z.min width height / 10).
Proof.
  intros Hw Hh. rewrite (scaled_min _ _ f0_3), (scaled_min _ _ f0_6).
  set (m := Z.min width height). assert (Hm : 0 <= m <= 1024) by lia.
  pose proof radius_bounds_checked as Hall.
  rewrite forallb_forall in Hall.
  assert (Hin : In m (map Z.of_nat (seq 0 1025))).
  { apply in_map_iff. exists (Z.to_nat m). split; [lia |].
    apply in_seq. lia. }
  apply Hall in Hin. unfold radius_bounds_exact in Hin.
  destruct (scaled m m f0_3) as [lo |], (scaled m m f0_6) as [hi |];
    try discriminate Hin.
  apply andb_prop in Hin as [Hlo Hhi].
  apply Z.eqb_eq in Hlo, Hhi. by subst.
Qed.

Section SynthesizerFacts.
Context {R : PRNG} {L : Libm} {P : Pillow}.

(** One round of draws succeeds on a canvas of at most 1024 by 1024, in
    the documented order and within the ranges. *)
Lemma blob_params_spec width height g :
  0 <= width <= 1024 -> 0 <= height <= 1024 ->
  exists b g', blob_params width height g = Ok (b, g')
               /\ drawn_in_order width height g b g'
               /\ blob_in_range width height b.
Proof.
  intros Hw Hh. unfold blob_params.
  destruct (radius_bounds width height Hw Hh) as [Hlo Hhi].
  destruct (randint_range g 0 width) as (x & g1 & E1 & Hx); [lia |].
  destruct (randint_range g1 0 height) as (y & g2 & E2 & Hy); [lia |].
  set (m := Z.min width height) in *.
  destruct (randint_range g2 (3 * m / 10) (6 * m / 10))
    as (r & g3 & E3 & Hr).
  { apply Z.div_le_mono; lia. }
  destruct (randint_range g3 80 180) as (red & g4 & E4 & Hred); [lia |].
  destruct (randint_range g4 80 180) as (green & g5 & E5 & Hgreen); [lia |].
  exists (Blob x y r (red, green, 255)), g5.
  split; [| split].
  - rewrite E1; cbn -[scaled]. rewrite E2; cbn -[scaled].
    rewrite Hlo, Hhi; cbn. rewrite E3; cbn. rewrite E4; cbn.
    rewrite E5. reflexivity.
  - exists (3 * m / 10), (6 * m / 10), g1, g2, g3, g4, red, green.
    repeat split; assumption.
  - unfold blob_in_range. fold m. cbn. lia.
Qed.

Lemma glow_layer_unfold width height img g b1 g1 b2 g2 b3 g3 :
  blob_params width height g = Ok (b1, g1) ->
  blob_params width height g1 = Ok (b2, g2) ->
  blob_params width height g2 = Ok (b3, g3) ->
  glow_layer width height img g
  = (let* i1 := render_blob img b1 in
     let* i2 := render_blob i1 b2 in
     let* i3 := render_blob i2 b3 in
     Ok (i3, g3)).
Proof.
  intros E1 E2 E3. unfold glow_layer. cbn [foldM].
  cbn -[blob_params render_blob]. rewrite E1. cbn -[blob_params render_blob].
  destruct (render_blob img b1) as [i1 |]; [| reflexivity].
  cbn -[blob_params render_blob]. rewrite E2. cbn -[blob_params render_blob].
  destruct (render_blob i1 b2) as [i2 |]; [| reflexivity].
  cbn -[blob_params render_blob]. rewrite E3. cbn -[blob_params render_blob].
  destruct (render_blob i2 b3) as [i3 |]; reflexivity.
Qed.

(** With an integer seed the synthesizer neither reads nor changes the
    world. *)
Lemma seeded_synthesis prompt width height seed w :
  _generate_placeholder_image prompt width height (Some seed) w
  = (render prompt width height (Random seed), w).
Proof.
  unfold _generate_placeholder_image. cbn -[render].
  unfold lift. reflexivity.
Qed.

(** The handler, case by case. *)
Lemma generate_image_try_cases req w :
  let prompt := GenerateRequest.prompt req in
  let width := GenerateRequest.width req in
  let height := GenerateRequest.height req in
  let s := fst (resolved req w) in
  let w1 := add_call (Synthesize prompt width height (Some s))
              (snd (resolved req w)) in
  generate_image_try req w
  = match render prompt width height (Random s) with
    | Raise e => (Raise e, w1)
    | Ok img =>
        match save_png img with
        | Raise e => (Raise e, add_call EncodePNG w1)
        | Ok png =>
            (Ok (GenerateResponse.Build (b64encode png) (lit "image/png")
                   width height prompt s (utcnow w ++ lit "Z")),
             add_call EncodePNG w1)
        end
    end.
Proof.
  unfold generate_image_try, resolved, resolve_seed.
  destruct (GenerateRequest.seed req) as [s |]; cbn -[render b64encode lit];
    unfold lift;
    destruct (render _ _ _ _) as [img |]; try reflexivity;
    cbn -[b64encode lit]; destruct (save_png img); reflexivity.
Qed.

End SynthesizerFacts.

Section SynthesizerTheorems.
Context {R : PRNG} {L : Libm} {P : Pillow}.

(** C2 (as the code has it). On a canvas of at most 1024 by 1024 the glow
    loop draws exactly three blobs from the generator seeded with [seed],
    one after the other; each takes, in this order, its centre's x from
    [0, width] and y from [0, height] (both ends included), its radius from
    the integers between 0.3 and 0.6 of the smaller side, both rounded
    down, and red and green from [80, 180], with blue 255. *)
Theorem glow_layer_three_blobs (width height seed : Z) (img : image) :
  0 <= width <= 1024 -> 0 <= height <= 1024 ->
  exists b1 b2 b3 g1 g2 g3,
    drawn_in_order width height (Random seed) b1 g1
    /\ drawn_in_order width height g1 b2 g2
    /\ drawn_in_order width height g2 b3 g3
    /\ Forall (blob_in_range width height) [b1; b2; b3]
    /\ glow_layer width height img (Random seed)
       = (let* i1 := render_blob img b1 in
          let* i2 := render_blob i1 b2 in
          let* i3 := render_blob i2 b3 in
          Ok (i3, g3)).
Proof.
  intros Hw Hh.
  destruct (blob_params_spec width height (Random seed) Hw Hh)
    as (b1 & g1 & E1 & D1 & R1).
  destruct (blob_params_spec width height g1 Hw Hh)
    as (b2 & g2 & E2 & D2 & R2).
  destruct (blob_params_spec width height g2 Hw Hh)
    as (b3 & g3 & E3 & D3 & R3).
  exists b1, b2, b3, g1, g2, g3.
  split; [exact D1 |]. split; [exact D2 |]. split; [exact D3 |].
  split.
  - constructor; [exact R1 |]. constructor; [exact R2 |].
    constructor; [exact R3 |]. constructor.
  - by apply (glow_layer_unfold _ _ _ _ _ g1 _ g2).
Qed.

(** C1. With a fixed prompt, size and integer seed, the synthesizer's
    result is the same in any two worlds (whatever the operating system's
    random source, the clock or earlier requests), and so is what the
    handler returns, base64 text included, up to the timestamp. *)
Theorem synthesis_deterministic
    (prompt : pystr) (width height seed : Z) (w1 w2 : World) :
  fst (_generate_placeholder_image prompt width height (Some seed) w1)
  = fst (_generate_placeholder_image prompt width height (Some seed) w2)
  /\ same_picture
       (fst (generate_image
               (GenerateRequest.Build prompt width height (Some seed)) w1))
       (fst (generate_image
               (GenerateRequest.Build prompt width height (Some seed)) w2)).
Proof.
  split.
  - by rewrite !seeded_synthesis.
  - unfold generate_image. rewrite !generate_image_try_cases.
    cbn -[render b64encode lit].
    destruct (render prompt width height (Random seed)) as [img | e].
    + destruct (save_png img) as [png | e]; cbn -[b64encode lit]; auto 10.
    + cbn -[lit]. auto.
Qed.

End SynthesizerTheorems.

(** ** The generate handler *)

Lemma byte_val_range b : 0 <= byte_val b < 256.
Proof.
  unfold byte_val. pose proof (Byte.to_N_bounded b). lia.
Qed.

(** Four bytes, most significant first. *)
Lemma int_from_bytes_big_4 b0 b1 b2 b3 :
  int_from_bytes_big [b0; b1; b2; b3]
  = byte_val b0 * 2 ^ 24 + byte_val b1 * 2 ^ 16 + byte_val b2 * 2 ^ 8
    + byte_val b3.
Proof. unfold int_from_bytes_big. simpl. lia. Qed.

Lemma validate_accepts p wd ht sd :
  2 <= len p <= 280 -> 256 <= wd <= 1024 -> 256 <= ht <= 1024 ->
  validate (Body (Some p) (Some wd) (Some ht) sd)
  = inl (GenerateRequest.Build p wd ht sd).
Proof.
  intros Hp Hw Hh. unfold validate, Field_str, Field_int. cbn [body_prompt body_width body_height body_seed].
  replace (2 <=? len p) with true by (symmetry; apply Z.leb_le; lia).
  replace (len p <=? 280) with true by (symmetry; apply Z.leb_le; lia).
  replace (256 <=? wd) with true by (symmetry; apply Z.leb_le; lia).
  replace (wd <=? 1024) with true by (symmetry; apply Z.leb_le; lia).
  replace (256 <=? ht) with true by (symmetry; apply Z.leb_le; lia).
  replace (ht <=? 1024) with true by (symmetry; apply Z.leb_le; lia).
  reflexivity.
Qed.

Lemma validate_rejects b :
  out_of_bounds b -> exists fields, validate b = inr fields /\ fields <> [].
Proof.
  unfold out_of_bounds, validate, Field_str, Field_int.
  destruct b as [[p |] [wd |] [ht |] sd]; cbn [body_prompt body_width body_height body_seed];
    intros Hbad;
    repeat match goal with
    | |- context [?a <=? ?b] => destruct (Z.leb_spec a b)
    end; cbn [andb field_error app];
    try (eexists; split; [reflexivity | discriminate]);
    exfalso; lia.
Qed.

Section HandlerTheorems.
Context {R : PRNG} {L : Libm} {P : Pillow}.

(** C5. A body whose prompt is missing, shorter than 2 or longer than 280
    code points, or whose width or height is outside [256, 1024], is
    answered with status 422 and the world is left as it was: no random
    byte read, no collaborator called.  A body with a prompt of exactly 2
    or exactly 280 code points and both sizes in range passes validation
    and reaches the handler, which answers 200 or raises its 500. *)
Theorem post_generate_validates (b : body) (w : World) :
  (out_of_bounds b ->
   exists fields,
     post_generate b w = (Http 422 (ValidationErrors fields), w))
  /\ (forall p wd ht sd,
        b = Body (Some p) (Some wd) (Some ht) sd ->
        len p = 2 \/ len p = 280 ->
        256 <= wd <= 1024 -> 256 <= ht <= 1024 ->
        validate b = inl (GenerateRequest.Build p wd ht sd)
        /\ (status (fst (post_generate b w)) = 200
            \/ status (fst (post_generate b w)) = 500)).
Proof.
  split.
  - intros Hbad. destruct (validate_rejects b Hbad) as (fields & E & _).
    exists fields. unfold post_generate. by rewrite E.
  - intros p wd ht sd -> Hp Hw Hh.
    assert (E : validate (Body (Some p) (Some wd) (Some ht) sd)
                = inl (GenerateRequest.Build p wd ht sd))
      by (apply validate_accepts; lia).
    split; [exact E |].
    unfold post_generate. rewrite E. unfold generate_image.
    destruct (generate_image_try _ w) as [[r | e] w']; cbn; auto.
Qed.

(** C6. The seed of a successful response is the seed the request
    resolves to; when the request has none, it is the big-endian value of
    the next four bytes of the operating system's random source, which
    lies in [0, 2^32), and those four bytes are consumed. *)
Theorem response_seed_resolved
    (req : GenerateRequest.t) (w : World) (r : GenerateResponse.t)
    (w' : World) :
  generate_image req w = (Returns r, w') ->
  GenerateResponse.seed r = fst (resolved req w)
  /\ (GenerateRequest.seed req = None ->
      exists b0 b1 b2 b3,
        map (entropy w) (seq (cursor w) 4) = [b0; b1; b2; b3]
        /\ GenerateResponse.seed r
           = byte_val b0 * 2 ^ 24 + byte_val b1 * 2 ^ 16
             + byte_val b2 * 2 ^ 8 + byte_val b3
        /\ 0 <= GenerateResponse.seed r < 2 ^ 32
        /\ cursor w' = (cursor w + 4)%nat).
Proof.
  unfold generate_image. rewrite generate_image_try_cases.
  destruct (render _ _ _ _) as [img | e]; [| discriminate].
  destruct (save_png img) as [png | e]; [| discriminate].
  intros [= <- <-]. split; [reflexivity |].
  intros Hnone. unfold resolved. rewrite Hnone.
  cbn [fst snd GenerateResponse.seed].
  change (map (entropy w) (seq (cursor w) 4))
    with [entropy w (cursor w); entropy w (S (cursor w));
          entropy w (S (S (cursor w))); entropy w (S (S (S (cursor w))))].
  eexists _, _, _, _. split; [reflexivity |].
  rewrite int_from_bytes_big_4. split; [reflexivity |].
  split; [| reflexivity].
  pose proof (byte_val_range (entropy w (cursor w))).
  pose proof (byte_val_range (entropy w (S (cursor w)))).
  pose proof (byte_val_range (entropy w (S (S (cursor w))))).
  pose proof (byte_val_range (entropy w (S (S (S (cursor w)))))).
  lia.
Qed.

(** C7 (as the code has it). If rendering the image or encoding it as PNG
    raises an exception [e], the handler raises [HTTPException] with status
    500 and detail "Generation failed: " followed by the whole of
    [str(e)]; the framework answers with that status and detail; and the
    synthesizer has been called once, with no second attempt. *)
Theorem generation_failure_reported
    (req : GenerateRequest.t) (w : World) (e : exc) :
  let prompt := GenerateRequest.prompt req in
  let width := GenerateRequest.width req in
  let height := GenerateRequest.height req in
  let s := fst (resolved req w) in
  (render prompt width height (Random s) = Raise e
   \/ exists img, render prompt width height (Random s) = Ok img
                  /\ save_png img = Raise e) ->
  exists w' tail,
    generate_image req w
    = (HTTPException 500 (lit "Generation failed: " ++ exc_str e), w')
    /\ (forall b, validate b = inl req ->
        post_generate b w
        = (Http 500 (Detail (lit "Generation failed: " ++ exc_str e)), w'))
    /\ calls w' = calls w ++ Synthesize prompt width height (Some s) :: tail
    /\ (tail = [] \/ tail = [EncodePNG]).
Proof.
  intros prompt width height s Hfail.
  assert (Hcalls : calls (snd (resolved req w)) = calls w).
  { unfold resolved. by destruct (GenerateRequest.seed req). }
  assert (Hrun : exists w' tail,
             generate_image req w
             = (HTTPException 500 (lit "Generation failed: " ++ exc_str e),
                w')
             /\ calls w'
                = calls w ++ Synthesize prompt width height (Some s) :: tail
             /\ (tail = [] \/ tail = [EncodePNG])).
  { unfold generate_image. rewrite generate_image_try_cases.
    fold prompt width height s.
    destruct Hfail as [-> | (img & -> & ->)].
    - eexists _, []. split; [reflexivity |]. split; [| by left].
      cbn [calls add_call]. by rewrite Hcalls.
    - eexists _, [EncodePNG]. split; [reflexivity |]. split; [| by right].
      cbn [calls add_call]. rewrite Hcalls. by rewrite <- app_assoc. }
  destruct Hrun as (w' & tail & Hgen & Hlog & Htail).
  exists w', tail. split; [exact Hgen |]. split; [| by split].
  intros b Hb. unfold post_generate. by rewrite Hb, Hgen.
Qed.

(** C10. A successful response carries the request's width, height and
    prompt as they came, and the request's seed when it has one; and a
    body with a valid prompt and sizes passes validation with any integer
    seed, negative ones included, the seed unchanged. *)
Theorem response_echoes_request
    (req : GenerateRequest.t) (w : World) (r : GenerateResponse.t)
    (w' : World) :
  generate_image req w = (Returns r, w') ->
  GenerateResponse.width r = GenerateRequest.width req
  /\ GenerateResponse.height r = GenerateRequest.height req
  /\ GenerateResponse.prompt r = GenerateRequest.prompt req
  /\ (forall s, GenerateRequest.seed req = Some s ->
                GenerateResponse.seed r = s)
  /\ (forall (s : Z) p wd ht,
        2 <= len p <= 280 -> 256 <= wd <= 1024 -> 256 <= ht <= 1024 ->
        validate (Body (Some p) (Some wd) (Some ht) (Some s))
        = inl (GenerateRequest.Build p wd ht (Some s))).
Proof.
  unfold generate_image. rewrite generate_image_try_cases.
  destruct (render _ _ _ _) as [img | e]; [| discriminate].
  destruct (save_png img) as [png | e]; [| discriminate].
  intros [= <- <-]. cbn -[lit b64encode].
  repeat split; try reflexivity.
  - intros s Hs. unfold resolved. by rewrite Hs.
  - intros s p wd ht Hp Hw Hh. by apply validate_accepts.
Qed.

End HandlerTheorems.

(** ** The diagnostics handler *)

Lemma len_slice_to {A} n (s : list A) : len (slice_to n s) <= Z.of_nat n.
Proof. unfold len, slice_to. rewrite length_take. lia. Qed.

(** Read a key of a dictionary built by successive assignments. *)
Ltac read_key :=
  repeat (rewrite lookup_insert_ne by done); rewrite lookup_insert_eq.

(** Run the handler's monadic code down to the dictionary it builds. *)
Ltac run :=
  cbv beta iota delta
    [Diagnostics.test_database Diagnostics.probe Diagnostics.setitem
     Diagnostics.name_or try_except bind ret st_monad result_monad lift
     modify get fst snd].

Lemma status_bound (mark text detail : pystr) (n : Z) :
  len mark + len text + 50 <= n ->
  len (mark ++ text ++ slice_to 50 detail) <= n.
Proof.
  intros H. rewrite !len_app. pose proof (len_slice_to 50 detail). lia.
Qed.

(** Settle one path of the diagnostics handler: the path's premises
    either contradict the case at hand or name it, and then the entries
    are read off the dictionary. *)
Ltac settle_path :=
  intros;
  repeat match goal with
         | H : Imported _ = Imported _ |- _ => injection H as H
         | H : Some _ = Some _ |- _ => injection H as H
         | H : ImportRaises _ = ImportRaises _ |- _ => injection H as H
         | H : _ = _ |- _ => discriminate H
         | H : {| db_name := _; list_collection_names := _ |} = _ |- _ =>
             subst
         | H : ?e = _ |- _ => is_var e; subst e
         end;
  cbn [db_name list_collection_names] in *;
  repeat match goal with
         | H : AttrRaises _ = AttrRaises _ |- _ => injection H as H; subst
         | H : Ok _ = Ok _ |- _ => injection H as H; subst
         | H : Raise _ = Raise _ |- _ => injection H as H; subst
         | H : _ = _ |- _ => discriminate H
         | H : forall e0, AttrRaises _ <> AttrRaises e0 |- _ =>
             exfalso; by eapply H
         | H : is_import_error ?e = _ |- context [is_import_error ?e] =>
             rewrite H
         end;
  try congruence;
  unfold error_text, listing_error_text, uninitialized_text, working_text;
  (split; [read_key; reflexivity
          | unfold Diagnostics.response0; read_key; reflexivity]).

(** C8. The diagnostics handler returns its dictionary in every
    environment: whatever the import, the attribute read or the listing
    raises is caught.  The [database] entry is always a string of at most
    75 code points, and on every path it names what happened:
    - the import raises [ImportError]: the module-not-found text;
    - the import raises anything else: "Error: " and the first 50 code
      points of the exception's message;
    - the handle is [None]: "Available but not initialized";
    - reading the handle's name raises: as for the import;
    - listing the collections raises: "Connected but Error: " and the
      first 50 code points of the message;
    - the listing succeeds: "Connected & Working", with the first ten
      names in [collections].
    On every path but the last [collections] is the empty list. *)
Theorem test_database_contained (env : Environment) :
  exists response,
    Diagnostics.test_database env = Ok response
    /\ (exists s, response !! "database" = Some (VStr s) /\ len s <= 75)
    /\ (forall e, import_db env = ImportRaises e ->
                  is_import_error e = true ->
                  response !! "database" = Some (VStr not_found)
                  /\ response !! "collections" = Some (VList []))
    /\ (forall e, import_db env = ImportRaises e ->
                  is_import_error e = false ->
                  response !! "database" = Some (VStr (error_text e))
                  /\ response !! "collections" = Some (VList []))
    /\ (import_db env = Imported None ->
        response !! "database" = Some (VStr uninitialized_text)
        /\ response !! "collections" = Some (VList []))
    /\ (forall db e, import_db env = Imported (Some db) ->
                     db_name db = AttrRaises e ->
                     response !! "database"
                     = Some (VStr (if is_import_error e then not_found
                                   else error_text e))
                     /\ response !! "collections" = Some (VList []))
    /\ (forall db e, import_db env = Imported (Some db) ->
                     (forall e0, db_name db <> AttrRaises e0) ->
                     list_collection_names db = Raise e ->
                     response !! "database"
                     = Some (VStr (listing_error_text e))
                     /\ response !! "collections" = Some (VList []))
    /\ (forall db cs, import_db env = Imported (Some db) ->
                      (forall e0, db_name db <> AttrRaises e0) ->
                      list_collection_names db = Ok cs ->
                      response !! "database" = Some (VStr working_text)
                      /\ response !! "collections"
                         = Some (VList (slice_to 10 cs))).
Proof.
  destruct (import_db env) as [e | [[[| name | e] [cs | e']] |]] eqn:Himp;
    try destruct (is_import_error e) eqn:Hie;
    (eexists; split;
     [run; rewrite Himp;
      cbv beta iota delta [db_name list_collection_names];
      rewrite ?Hie; reflexivity |]);
    (split;
     [eexists; split; [read_key; reflexivity |];
      try (apply status_bound); vm_compute; discriminate |]).
  all: repeat (split; [settle_path |]); settle_path.
Qed.

(** Without the database module; and with a handle whose listing times
    out. *)
Lemma test_database_contained_witness :
  (exists response,
      Diagnostics.test_database
        {| import_db :=
             ImportRaises
               (Exc ImportError (lit "No module named 'database'"));
           getenv := fun _ => None |}
      = Ok response
      /\ response !! "database" = Some (VStr not_found)
      /\ response !! "collections" = Some (VList []))
  /\ (exists response,
        Diagnostics.test_database
          {| import_db :=
               Imported
                 (Some {| db_name := HasAttr (VStr (lit "app"));
                          list_collection_names :=
                            Raise (Exc (OtherException "TimeoutError")
                                     (lit "timed out")) |});
             getenv := fun _ => None |}
        = Ok response
        /\ response !! "database"
           = Some (VStr (warning_sign
                           ++ lit "  Connected but Error: timed out"))
        /\ response !! "collections" = Some (VList [])).
Proof.
  split.
  - destruct (test_database_contained
                {| import_db :=
                     ImportRaises
                       (Exc ImportError (lit "No module named 'database'"));
                   getenv := fun _ => None |})
      as (response & Hret & _ & Hmissing & _).
    exists response. split; [exact Hret |].
    apply (Hmissing (Exc ImportError (lit "No module named 'database'")));
      reflexivity.
  - destruct (test_database_contained
                {| import_db :=
                     Imported
                       (Some {| db_name := HasAttr (VStr (lit "app"));
                                list_collection_names :=
                                  Raise (Exc (OtherException "TimeoutError")
                                           (lit "timed out")) |});
                   getenv := fun _ => None |})
      as (response & Hret & _ & _ & _ & _ & _ & Hlisting & _).
    exists response. split; [exact Hret |].
    apply (Hlisting
             {| db_name := HasAttr (VStr (lit "app"));
                list_collection_names :=
                  Raise (Exc (OtherException "TimeoutError")
                           (lit "timed out")) |}
             (Exc (OtherException "TimeoutError") (lit "timed out")));
      [reflexivity | discriminate | reflexivity].
Defined.

(** ** The Mersenne Twister as a generator *)

Module MT19937Facts.
Import MT19937.

Lemma u32_nonneg x : 0 <= u32 x.
Proof. unfold u32. apply Z.mod_pos_bound. lia. Qed.

Lemma genrand_uint32_nonneg g : 0 <= fst (genrand_uint32 g).
Proof. unfold genrand_uint32. cbn [fst]. apply u32_nonneg. Qed.

Lemma getrandbits_words_nonneg words : forall k g,
  0 <= fst (getrandbits_words words k g).
Proof.
  induction words as [| words IH]; intros k g; cbn [getrandbits_words].
  - cbn. lia.
  - pose proof (genrand_uint32_nonneg g) as Hr.
    destruct (genrand_uint32 g) as [r g1]. cbn [fst] in Hr.
    specialize (IH (k - 32) g1).
    destruct (getrandbits_words words (k - 32) g1) as [rest g2].
    cbn [fst] in *.
    assert (0 <= (if k <? 32 then Z.shiftr r (32 - k) else r)).
    { destruct (k <? 32); [by apply Z.shiftr_nonneg | exact Hr]. }
    lia.
Qed.

Lemma randbelow_range fuel : forall n g,
  0 < n -> 0 <= fst (randbelow fuel n g) < n.
Proof.
  induction fuel as [| fuel IH]; intros n g Hn; cbn [randbelow];
    pose proof (getrandbits_words_nonneg
                  (Z.to_nat ((Z.log2 n + 1 - 1) / 32 + 1)) (Z.log2 n + 1) g)
      as Hr;
    unfold getrandbits;
    destruct (getrandbits_words _ (Z.log2 n + 1) g) as [r g1];
    cbn [fst] in Hr;
    destruct (Z.ltb_spec r n) as [Hlt | Hge]; cbn [fst]; try lia.
  - apply Z.mod_pos_bound. lia.
  - by apply IH.
Qed.

End MT19937Facts.

(** CPython's generator behind the [PRNG] interface. *)
#[refine] Definition mersenne_twister : PRNG := {|
  rng := MT19937.generator;
  Random := MT19937.seed;
  os_seed_bytes := 2496;
  Random_os := MT19937.seed_os;
  randint := MT19937.randint
|}.
Proof.
  - intros g a b Hab. unfold MT19937.randint.
    destruct (Z.ltb_spec 0 (b + 1 - a)) as [Hpos | Hneg]; [| lia].
    pose proof (MT19937Facts.randbelow_range 128 (b + 1 - a) g Hpos) as Hr.
    destruct (MT19937.randbelow 128 (b + 1 - a) g) as [r g'].
    cbn [fst] in Hr. exists (a + r), g'. split; [reflexivity | lia].
  - intros g a b Hab. unfold MT19937.randint.
    destruct (Z.ltb_spec 0 (b + 1 - a)) as [Hpos | Hneg]; [lia |].
    eexists. reflexivity.
Defined.

(** ** Runs on the concrete collaborators *)

Section Concrete.
#[local] Existing Instance mersenne_twister.
#[local] Existing Instance Square.libm.
#[local] Existing Instance Canvas.working.

(** The first draws of [random.Random(42)]. *)
Example python_random_42 :
  drawn (blob_params 256 256 (Random 42))
  = Some (Blob 57 12 111 (111, 108, 255)).
Proof. vm_compute. reflexivity. Qed.

(** C2, counterexample. With [random.Random(16641)] on a 256 by 256
    canvas, the first blob's centre has x = 256, which is the width
    itself, and its radius is 76, which is less than 0.3 * 256. *)
Lemma glow_blob_outside_specified_ranges :
  drawn (blob_params 256 256 (Random 16641))
  = Some (Blob 256 112 76 (85, 106, 255))
  /\ ~ blob_as_specified 256 256 (Blob 256 112 76 (85, 106, 255)).
Proof.
  split; [vm_compute; reflexivity |].
  unfold blob_as_specified. cbn. lia.
Qed.

(** The three blobs of [random.Random(42)] on a 256 by 256 canvas. *)
Lemma glow_layer_three_blobs_witness :
  let canvas : image := Canvas.New "RGB" (256, 256) [10; 12; 26] in
  exists b1 b2 b3 g1 g2 g3,
    drawn_in_order 256 256 (Random 42) b1 g1
    /\ drawn_in_order 256 256 g1 b2 g2
    /\ drawn_in_order 256 256 g2 b3 g3
    /\ Forall (blob_in_range 256 256) [b1; b2; b3]
    /\ glow_layer 256 256 canvas (Random 42)
       = (let* i1 := render_blob canvas b1 in
          let* i2 := render_blob i1 b2 in
          let* i3 := render_blob i2 b3 in
          Ok (i3, g3)).
Proof.
  apply (glow_layer_three_blobs 256 256 42); lia.
Defined.

(** C7, counterexample. No cut-off applies to the message: whatever the
    limit, a failure whose message is longer reaches the client whole. *)
Lemma failure_detail_not_truncated :
  ~ exists limit : nat, forall msg : pystr,
      fst (generate_image (P := Canvas.broken msg) (cat_request (Some 42))
             counting_world)
      = HTTPException 500 (lit "Generation failed: " ++ take limit msg).
Proof.
  intros [limit Hcut].
  specialize (Hcut (replicate (S limit) 120%N)).
  unfold generate_image in Hcut.
  rewrite generate_image_try_cases in Hcut.
  cbn -[lit replicate take] in Hcut.
  injection Hcut as Hmsg.
  apply (f_equal length) in Hmsg.
  rewrite length_take in Hmsg. cbn [length] in Hmsg.
  rewrite length_replicate in Hmsg. lia.
Qed.

(** A width of 255 is refused; a two-letter prompt at the smallest and
    the largest size is accepted. *)
Lemma post_generate_validates_witness :
  (exists fields,
      post_generate (Body (Some (lit "A cat")) (Some 255) None (Some 42))
        counting_world
      = (Http 422 (ValidationErrors fields), counting_world))
  /\ validate (Body (Some (lit "hi")) (Some 256) (Some 1024) None)
     = inl (GenerateRequest.Build (lit "hi") 256 1024 None).
Proof.
  split.
  - destruct (post_generate_validates
                (Body (Some (lit "A cat")) (Some 255) None (Some 42))
                counting_world) as [Hreject _].
    apply Hreject. right. left. cbn. lia.
  - destruct (post_generate_validates
                (Body (Some (lit "hi")) (Some 256) (Some 1024) None)
                counting_world) as [_ Haccept].
    apply (Haccept (lit "hi") 256 1024 None); [reflexivity | | lia | lia].
    left. reflexivity.
Defined.

(** A seedless request in the counting world gets the seed 0x00010203. *)
Lemma response_seed_resolved_witness :
  exists r w',
    generate_image (cat_request None) counting_world = (Returns r, w')
    /\ GenerateResponse.seed r = 66051
    /\ cursor w' = 4%nat.
Proof.
  eexists _, _. split; [vm_compute; reflexivity |].
  match goal with
  | |- GenerateResponse.seed ?r = _ /\ cursor ?w' = _ =>
      destruct (response_seed_resolved (cat_request None) counting_world
                  r w') as [Hseed Hdrawn]; [vm_compute; reflexivity |];
      destruct (Hdrawn eq_refl) as (b0 & b1 & b2 & b3 & _ & _ & _ & Hcur)
  end.
  split; [exact Hseed | exact Hcur].
Defined.

(** A Pillow that cannot allocate: the client reads the message. *)
Lemma generation_failure_reported_witness :
  exists w' tail,
    generate_image (P := Canvas.broken (lit "out of memory"))
      (cat_request (Some 42)) counting_world
    = (HTTPException 500 (lit "Generation failed: out of memory"), w')
    /\ calls w' = [Synthesize (lit "A cat") 256 256 (Some 42)] ++ tail
    /\ (tail = [] \/ tail = [EncodePNG]).
Proof.
  destruct (generation_failure_reported (P := Canvas.broken (lit "out of memory"))
              (cat_request (Some 42)) counting_world
              (Exc (OtherException "MemoryError") (lit "out of memory")))
    as (w' & tail & Hgen & _ & Hcalls & Htail).
  - left. reflexivity.
  - exists w', tail. split; [exact Hgen |]. split; [exact Hcalls | exact Htail].
Defined.

(** A request with the seed -7 is answered with its own fields. *)
Lemma response_echoes_request_witness :
  exists r w',
    generate_image (cat_request (Some (-7))) counting_world = (Returns r, w')
    /\ GenerateResponse.width r = 256
    /\ GenerateResponse.height r = 256
    /\ GenerateResponse.prompt r = lit "A cat"
    /\ GenerateResponse.seed r = -7.
Proof.
  eexists _, _. split; [vm_compute; reflexivity |].
  match goal with
  | |- GenerateResponse.width ?r = _ /\ _ =>
      destruct (response_echoes_request (cat_request (Some (-7)))
                  counting_world r
                  (add_call EncodePNG
                     (add_call (Synthesize (lit "A cat") 256 256 (Some (-7)))
                        counting_world)))
        as (Hw & Hh & Hp & Hs & _); [vm_compute; reflexivity |]
  end.
  split; [exact Hw |]. split; [exact Hh |]. split; [exact Hp |].
  apply Hs. reflexivity.
Defined.

(** Without a seed the synthesizer does read the world: two worlds whose
    random sources differ give different pictures. *)
Remark seedless_synthesis_reads_world :
  fst (_generate_placeholder_image (lit "A cat") 256 256 None counting_world)
  <> fst (_generate_placeholder_image (lit "A cat") 256 256 None
            (advance 1 counting_world)).
Proof. vm_compute. discriminate. Qed.

End Concrete.

(** ** Sample evaluations *)

Example wrap_text_sample :
  Wrap.wrap_text (lit "a quick  brown fox") 7
  = [lit "a quick"; lit "brown"; lit "fox"].
Proof. reflexivity. Qed.

Example radius_bounds_sample :
  scaled 256 300 f0_3 = Ok 76 /\ scaled 256 300 f0_6 = Ok 153.
Proof. split; reflexivity. Qed.

Example float_literals_sample :
  SFdiv prec emax (S754_finite false 3 0) (S754_finite false 10 0) = f0_3
  /\ SFdiv prec emax (S754_finite false 6 0) (S754_finite false 10 0) = f0_6
  /\ SFdiv prec emax (S754_finite false 8 0) (S754_finite false 100 0)
     = f0_08
  /\ SFdiv prec emax (S754_finite false 4 0) (S754_finite false 100 0)
     = f0_04
  /\ float_of_int 2 = Ok f2_0
  /\ int_truediv 1 2 = Ok f0_5.
Proof. vm_compute. repeat split. Qed.

Example b64encode_sample :
  b64encode [Byte.x4d; Byte.x61; Byte.x6e; Byte.x4d] = lit "TWFuTQ==".
Proof. reflexivity. Qed.

Example range_down2_sample :
  range_down2 5 = [5; 3; 1] /\ range_down2 4 = [4; 2]
  /\ range_down2 0 = [] /\ range_down2 (-3) = [].
Proof. repeat split. Qed.

(** * Further properties *)

(** ** Splitting, joining and wrapping, further *)

Module SplitFacts.

Lemma split_from_is_word s : forall cur,
  Forall (fun c => py_isspace c = false) cur ->
  Forall is_word (split_from cur s).
Proof.
  induction s as [| c s IH]; intros cur Hcur; cbn [split_from].
  - destruct cur; constructor; [| constructor]. split; [discriminate | exact Hcur].
  - destruct (py_isspace c) eqn:Hc.
    + destruct cur as [| x cur]; [by apply IH |].
      constructor; [split; [discriminate | exact Hcur] | by apply IH].
    + apply IH. apply Forall_app. split; [exact Hcur |]. by constructor.
Qed.

Lemma py_split_is_word text : Forall is_word (py_split text).
Proof. apply split_from_is_word. constructor. Qed.

(** A separator cuts the text: the words before it and the words after
    it. *)
Lemma split_from_app_space a s b : forall cur,
  py_isspace s = true ->
  split_from cur (a ++ s :: b) = split_from cur a ++ split_from [] b.
Proof.
  induction a as [| c a IH]; intros cur Hs; cbn [app split_from].
  - rewrite Hs. by destruct cur.
  - destruct (py_isspace c).
    + destruct cur; cbn [app]; by rewrite IH.
    + by apply IH.
Qed.

Lemma split_from_word w : forall cur,
  Forall (fun c => py_isspace c = false) w ->
  cur ++ w <> [] ->
  split_from cur w = [cur ++ w].
Proof.
  induction w as [| c w IH]; intros cur Hw Hne; cbn [split_from].
  - rewrite app_nil_r in *. by destruct cur.
  - inversion Hw as [| ? ? Hc Hw']; subst. rewrite Hc.
    rewrite IH; [by rewrite <- app_assoc | exact Hw' |].
    rewrite <- app_assoc. exact Hne.
Qed.

Lemma py_split_word w : is_word w -> py_split w = [w].
Proof.
  intros [Hne Hw]. unfold py_split. by rewrite split_from_word.
Qed.

(** Splitting undoes joining with a separator character. *)
Lemma py_split_join s ws :
  py_isspace s = true -> Forall is_word ws ->
  py_split (py_join [s] ws) = ws.
Proof.
  intros Hs. induction 1 as [| w ws Hw Hws IH]; [reflexivity |].
  destruct ws as [| w' ws]; [by apply py_split_word |].
  rewrite py_join_cons by discriminate.
  cbn [app]. unfold py_split. rewrite split_from_app_space by exact Hs.
  fold (py_split w). rewrite (py_split_word w Hw).
  fold (py_split (py_join [s] (w' :: ws))). by rewrite IH.
Qed.

(** Splitting a text of several lines gives the words of each line in
    turn. *)
Lemma py_split_join_lines s ls :
  py_isspace s = true ->
  py_split (py_join [s] ls) = concat (map py_split ls).
Proof.
  intros Hs. induction ls as [| l ls IH]; [reflexivity |].
  destruct ls as [| l' ls]; [cbn; by rewrite app_nil_r |].
  rewrite py_join_cons by discriminate.
  cbn [app map concat]. unfold py_split at 1.
  rewrite split_from_app_space by exact Hs.
  fold (py_split l). fold (py_split (py_join [s] (l' :: ls))).
  by rewrite IH.
Qed.

End SplitFacts.

Module WrapMore.
Import Wrap.

Lemma sum_len_nonneg l : 0 <= sum_len l.
Proof.
  induction l as [| x l IH]; simpl; [lia |]. pose proof (len_nonneg x). lia.
Qed.

Lemma sum_len_app a b : sum_len (a ++ b) = sum_len a + sum_len b.
Proof. induction a as [| x a IH]; simpl; [lia |]. rewrite IH. lia. Qed.

(** The length of a joined line: its words and one space between
    neighbours. *)
Lemma len_join l :
  l <> [] -> len (py_join space l) = sum_len l + len l - 1.
Proof.
  destruct l as [| x l] using rev_ind; [congruence |]. intros _.
  rewrite WrapFacts.len_join_snoc, sum_len_app, len_app.
  simpl. unfold len. simpl. lia.
Qed.

Lemma len_join_prefix a b :
  len (py_join space a) <= len (py_join space (a ++ b)).
Proof.
  destruct a as [| x a]; [apply len_nonneg |].
  rewrite !len_join by discriminate.
  rewrite sum_len_app, len_app.
  pose proof (sum_len_nonneg b). pose proof (len_nonneg b). lia.
Qed.

(** The wrapper's lines are the joined groups of the greedy filling. *)
Lemma wrap_text_groups text max :
  wrap_text text max
  = map (py_join space) (take 6 (greedy_groups max [] (py_split text))).
Proof.
  unfold wrap_text, slice_to.
  rewrite WrapFacts.wrap_lines_greedy, WrapFacts.greedy_as_groups.
  apply firstn_map.
Qed.

(** A group either fits or was started by a word that could not fit
    anywhere. *)
Lemma groups_fit max ws : forall cur,
  (len (py_join space cur) <= max \/ (length cur <= 1)%nat) ->
  Forall (fun g => len (py_join space g) <= max \/ (length g <= 1)%nat)
         (greedy_groups max cur ws).
Proof.
  induction ws as [| w ws IH]; intros cur Hcur; cbn [greedy_groups].
  - destruct cur; constructor; [exact Hcur | constructor].
  - destruct (Z.gtb_spec (len (py_join space (cur ++ [w]))) max) as [Hgt | Hle].
    + constructor; [exact Hcur |]. apply IH. right. simpl. lia.
    + apply IH. by left.
Qed.

Lemma groups_words max text :
  Forall (Forall is_word) (greedy_groups max [] (py_split text)).
Proof.
  apply Forall_concat. rewrite WrapFacts.concat_greedy_groups.
  apply SplitFacts.py_split_is_word.
Qed.

Lemma join_no_space_free g :
  Forall is_word g -> (length g <= 1)%nat ->
  Forall (fun c => py_isspace c = false) (py_join space g).
Proof.
  intros Hg Hlen. destruct g as [| w [| w' g]]; [constructor | | simpl in Hlen; lia].
  inversion Hg as [| ? ? [_ Hw] _]; subst. exact Hw.
Qed.

(** With room for all the words on one line, that line is the result. *)
Lemma greedy_fits max ws : forall cur,
  cur ++ ws <> [] ->
  len (py_join space (cur ++ ws)) <= max ->
  greedy max cur ws = [py_join space (cur ++ ws)].
Proof.
  induction ws as [| w ws IH]; intros cur Hne Hfit; cbn [greedy].
  - rewrite app_nil_r in *. by destruct cur.
  - assert (Hstep : len (py_join space (cur ++ [w])) <= max).
    { etransitivity; [| exact Hfit].
      replace (cur ++ w :: ws) with ((cur ++ [w]) ++ ws)
        by (by rewrite <- app_assoc).
      apply len_join_prefix. }
    destruct (Z.gtb_spec (len (py_join space (cur ++ [w]))) max) as [Hgt | _];
      [lia |].
    replace (cur ++ w :: ws) with ((cur ++ [w]) ++ ws) in *
      by (by rewrite <- app_assoc).
    by apply IH.
Qed.

Lemma In_take {A} (x : A) n : forall l, In x (take n l) -> In x l.
Proof.
  induction n as [| n IH]; intros [| y l]; cbn; try tauto.
  intros [-> | Hin]; [by left | right; by apply IH].
Qed.

Lemma join_words_nonempty g :
  g <> [] -> Forall is_word g -> py_join space g <> [].
Proof.
  destruct g as [| w g]; [congruence |]. intros _ Hg.
  inversion Hg as [| ? ? [Hne _] _]; subst.
  destruct g; [exact Hne |]. rewrite py_join_cons by discriminate.
  destruct w; [congruence | discriminate].
Qed.

End WrapMore.

(** X1. A line of the wrapper that is longer than the maximum width holds
    no separator: it is a single word that could not fit on any line.
    Every line made of two words or more is within the maximum. *)
Theorem wrap_text_long_lines_unbroken (text : pystr) (max_chars : Z) :
  Forall (fun l => len l <= max_chars
                   \/ Forall (fun c => py_isspace c = false) l)
         (Wrap.wrap_text text max_chars).
Proof.
  rewrite WrapMore.wrap_text_groups. apply Forall_map.
  pose proof (WrapMore.groups_fit max_chars (py_split text) []
                (or_intror (Nat.le_0_l 1))) as Hfit.
  pose proof (WrapMore.groups_words max_chars text) as Hwords.
  apply (Forall_take _ 6%nat) in Hfit, Hwords.
  induction Hfit as [| g gs Hg _ IH]; [constructor |].
  inversion Hwords as [| ? ? Hgw Hgsw]; subst.
  constructor; [| by apply IH].
  destruct Hg as [Hle | Hone]; [by left | right].
  by apply WrapMore.join_no_space_free.
Qed.

(** X2. When the words of the text, joined by single spaces, fit in the
    maximum width, the wrapper returns that one line. *)
Theorem wrap_text_single_line (text : pystr) (max_chars : Z) :
  py_split text <> [] ->
  len (py_join space (py_split text)) <= max_chars ->
  Wrap.wrap_text text max_chars = [py_join space (py_split text)].
Proof.
  intros Hne Hfit. unfold Wrap.wrap_text, slice_to.
  rewrite WrapFacts.wrap_lines_greedy.
  by rewrite (WrapMore.greedy_fits max_chars (py_split text) []).
Qed.

(** A short prompt with stray blanks. *)
Lemma wrap_text_single_line_witness :
  Wrap.wrap_text (lit "  a  cat ") 32 = [lit "a cat"].
Proof.
  apply (wrap_text_single_line (lit "  a  cat ") 32).
  - discriminate.
  - vm_compute. discriminate.
Defined.

(** X3. Splitting the text block the wrapper's lines make when joined by
    newlines gives back the words of the prompt, in order, up to the
    words cut with the seventh and later lines; when the wrapping has at
    most six lines no word is lost. *)
Theorem wrap_text_keeps_words (text : pystr) (max_chars : Z) :
  exists dropped,
    py_split (py_join newline (Wrap.wrap_text text max_chars)) ++ dropped
    = py_split text
    /\ ((length (Wrap.wrap_lines text max_chars) <= 6)%nat -> dropped = []).
Proof.
  set (gs := Wrap.greedy_groups max_chars [] (py_split text)).
  assert (Hsplit : py_split (py_join newline (Wrap.wrap_text text max_chars))
                   = concat (take 6 gs)).
  { rewrite WrapMore.wrap_text_groups. fold gs.
    rewrite (SplitFacts.py_split_join_lines 10%N) by reflexivity.
    f_equal. rewrite map_map.
    pose proof (WrapMore.groups_words max_chars text) as Hwords. fold gs in Hwords.
    apply (Forall_take _ 6%nat) in Hwords.
    induction Hwords as [| g gs' Hg _ IH]; [reflexivity |].
    cbn [map]. rewrite IH. f_equal.
    by apply (SplitFacts.py_split_join 32%N). }
  exists (concat (drop 6 gs)). split.
  - rewrite Hsplit, <- concat_app, take_drop. unfold gs.
    by rewrite WrapFacts.concat_greedy_groups.
  - intros Hlen.
    rewrite WrapFacts.wrap_lines_greedy, WrapFacts.greedy_as_groups in Hlen.
    rewrite length_map in Hlen. fold gs in Hlen.
    by rewrite drop_ge.
Qed.

(** Four words on three lines: nothing is lost. *)
Lemma wrap_text_keeps_words_witness :
  exists dropped,
    py_split (py_join newline (Wrap.wrap_text (lit "a quick brown fox") 7))
      ++ dropped
    = py_split (lit "a quick brown fox")
    /\ dropped = [].
Proof.
  destruct (wrap_text_keeps_words (lit "a quick brown fox") 7)
    as (dropped & Hwords & Hnone).
  exists dropped. split; [exact Hwords |].
  apply Hnone. vm_compute. lia.
Defined.

(** X4. Only the first line can be empty, and it is empty exactly when the
    first word is longer than the maximum width. *)
Theorem wrap_text_empty_line (text : pystr) (max_chars : Z)
    (w : pystr) (rest : list pystr) :
  py_split text = w :: rest ->
  Forall (fun l => l <> []) (drop 1 (Wrap.wrap_text text max_chars))
  /\ (In [] (Wrap.wrap_text text max_chars) <-> max_chars < len w).
Proof.
  intros Hsplit.
  pose proof (WrapMore.groups_words max_chars text) as Hwords.
  pose proof (WrapFacts.groups_tail_nonempty max_chars (py_split text))
    as Htail.
  split.
  - rewrite WrapMore.wrap_text_groups, skipn_map. apply Forall_map.
    change 6%nat with (1 + 5)%nat. rewrite <- take_drop_commute.
    apply (Forall_drop _ 1%nat) in Hwords.
    apply (Forall_take _ 5%nat) in Hwords, Htail.
    induction Htail as [| g gs Hg _ IH]; [constructor |].
    inversion Hwords; subst.
    constructor; [by apply WrapMore.join_words_nonempty | by apply IH].
  - split.
    + intros Hin. destruct (Z.lt_ge_cases max_chars (len w)) as [| Hfit];
        [assumption | exfalso].
      rewrite WrapMore.wrap_text_groups in Hin.
      apply in_map_iff in Hin as (g & Hg & Hin).
      apply WrapMore.In_take in Hin.
      rewrite Hsplit in Hin, Hwords. cbn [Wrap.greedy_groups] in Hin, Hwords.
      change ([] ++ [w]) with [w] in Hin, Hwords.
      change (py_join space [w]) with w in Hin, Hwords.
      destruct (Z.gtb_spec (len w) max_chars) as [| _]; [lia |].
      pose proof (WrapFacts.groups_nonempty max_chars rest [w]) as Hne.
      rewrite Forall_forall in Hne, Hwords. apply list_elem_of_In in Hin.
      apply (WrapMore.join_words_nonempty g);
        [apply Hne; [discriminate | exact Hin]
        | apply Hwords; exact Hin | exact Hg].
    + intros Hlong. unfold Wrap.wrap_text, slice_to.
      rewrite WrapFacts.wrap_lines_greedy, Hsplit.
      destruct (WrapFacts.greedy_overlong max_chars w rest Hlong) as [more ->].
      by left.
Qed.

(** With a first word of 33 characters at width 32. *)
Lemma wrap_text_empty_line_witness :
  Forall (fun l => l <> [])
         (drop 1 (Wrap.wrap_text (long_word ++ lit " cat") 32))
  /\ (In [] (Wrap.wrap_text (long_word ++ lit " cat") 32) <-> 32 < 33).
Proof.
  apply (wrap_text_empty_line (long_word ++ lit " cat") 32 long_word
           [lit "cat"]).
  reflexivity.
Defined.

Module RowFacts.






End RowFacts.


(** ** Validation and the generate handler, further *)


(** X6. Validation accepts exactly the bodies within bounds, and the
    request it builds takes the body's prompt and seed as they are and
    768 for a width or height the body leaves out. *)
Theorem validate_defaults (b : body) :
  (~ out_of_bounds b ->
   exists p, body_prompt b = Some p
     /\ validate b
        = inl (GenerateRequest.Build p (default 768 (body_width b))
                 (default 768 (body_height b)) (body_seed b)))
  /\ (out_of_bounds b -> exists fields, validate b = inr fields).
Proof.
  split.
  - unfold out_of_bounds, validate, Field_str, Field_int.
    destruct b as [[p |] [wd |] [ht |] sd];
      cbn [body_prompt body_width body_height body_seed default];
      intros Hok;
      repeat match goal with
      | |- context [?a <=? ?b] => destruct (Z.leb_spec a b)
      end; cbn [andb];
      try (eexists; split; reflexivity);
      exfalso; apply Hok; try tauto; lia.
  - intros Hbad. destruct (validate_rejects b Hbad) as (fields & E & _).
    by exists fields.
Qed.

(** A body that leaves the width out. *)
Lemma validate_defaults_witness :
  exists p, body_prompt (Body (Some (lit "A cat")) None (Some 300) None) = Some p
    /\ validate (Body (Some (lit "A cat")) None (Some 300) None)
       = inl (GenerateRequest.Build p 768 300 None).
Proof.
  destruct (validate_defaults (Body (Some (lit "A cat")) None (Some 300) None))
    as [Hok _].
  apply Hok. unfold out_of_bounds.
  cbn [body_prompt body_width body_height].
  change (len (lit "A cat")) with 5. lia.
Defined.

Section HandlerMore.
Context {R : PRNG} {L : Libm} {P : Pillow}.


(** X8. Whatever the outcome, the handler calls the synthesizer once, the
    PNG encoder at most once and after it, and reads four bytes of the
    operating system's random source when the request has no seed and
    none when it has one. *)
Theorem generate_image_effects (req : GenerateRequest.t) (w : World) :
  let w' := snd (generate_image req w) in
  (exists tail,
      calls w'
      = calls w
        ++ Synthesize (GenerateRequest.prompt req) (GenerateRequest.width req)
             (GenerateRequest.height req) (Some (fst (resolved req w)))
           :: tail
      /\ (tail = [] \/ tail = [EncodePNG]))
  /\ cursor w'
     = (cursor w + match GenerateRequest.seed req with
                   | Some _ => 0
                   | None => 4
                   end)%nat
  /\ entropy w' = entropy w
  /\ utcnow w' = utcnow w.
Proof.
  intros w'. unfold w', generate_image.
  rewrite generate_image_try_cases.
  assert (Hres : calls (snd (resolved req w)) = calls w
                 /\ cursor (snd (resolved req w))
                    = (cursor w + match GenerateRequest.seed req with
                                  | Some _ => 0
                                  | None => 4
                                  end)%nat
                 /\ entropy (snd (resolved req w)) = entropy w
                 /\ utcnow (snd (resolved req w)) = utcnow w).
  { unfold resolved. destruct (GenerateRequest.seed req); cbn; auto with lia. }
  destruct Hres as (Hc & Hcur & He & Hu).
  destruct (render _ _ _ _) as [img | e]; [destruct (save_png img) |];
    cbn [snd calls cursor entropy utcnow add_call]; rewrite Hc;
    (split; [| by repeat split]).
  - exists [EncodePNG]. split; [by rewrite <- app_assoc | by right].
  - exists [EncodePNG]. split; [by rewrite <- app_assoc | by right].
  - exists []. split; [reflexivity | by left].
Qed.

(** X9. The handler returns a response exactly when rendering and PNG
    encoding both succeed; the response then carries the base64 text of
    the PNG bytes, the type "image/png", the request's fields, the
    resolved seed and the clock's reading followed by "Z". *)
Theorem generate_image_success
    (req : GenerateRequest.t) (w : World) (r : GenerateResponse.t) :
  fst (generate_image req w) = Returns r
  <-> exists img png,
        render (GenerateRequest.prompt req) (GenerateRequest.width req)
          (GenerateRequest.height req) (Random (fst (resolved req w)))
        = Ok img
        /\ save_png img = Ok png
        /\ r = GenerateResponse.Build (b64encode png) (lit "image/png")
                 (GenerateRequest.width req) (GenerateRequest.height req)
                 (GenerateRequest.prompt req) (fst (resolved req w))
                 (utcnow w ++ lit "Z").
Proof.
  unfold generate_image. rewrite generate_image_try_cases.
  destruct (render _ _ _ _) as [img | e];
    [destruct (save_png img) as [png | e] eqn:Epng |]; cbn [fst]; split.
  - intros [= <-]. by exists img, png.
  - intros (img' & png' & [= <-] & Hpng & ->).
    rewrite Epng in Hpng. by injection Hpng as <-.
  - discriminate.
  - intros (img' & png' & [= <-] & Hpng & _). congruence.
  - discriminate.
  - intros (img' & png' & [=] & _).
Qed.

(** X10. Called with a negative width or height, the synthesizer returns
    no image: if the canvas can be allocated at all, drawing the first
    blob's centre raises [ValueError] for the empty range. *)
Theorem render_negative_size
    (prompt : pystr) (width height : Z) (g : rng) :
  width < 0 \/ height < 0 ->
  (exists e, render prompt width height g = Raise e)
  /\ (forall img, Image_new "RGB" (width, height) [10; 12; 26] = Ok img ->
      exists msg, render prompt width height g = Raise (Exc ValueError msg)).
Proof.
  intros Hneg.
  assert (Hblob : exists msg,
             blob_params width height g = Raise (Exc ValueError msg)).
  { unfold blob_params. destruct (Z.lt_ge_cases width 0) as [Hw | Hw].
    - destruct (randint_empty g 0 width Hw) as [msg ->]. by exists msg.
    - assert (Hh : height < 0) by lia.
      destruct (randint_range g 0 width Hw) as (x & g1 & -> & _).
      cbn -[scaled].
      destruct (randint_empty g1 0 height Hh) as [msg ->]. by exists msg. }
  destruct Hblob as [msg Hblob].
  assert (Hall : forall img,
             Image_new "RGB" (width, height) [10; 12; 26] = Ok img ->
             render prompt width height g = Raise (Exc ValueError msg)).
  { intros img Himg. unfold render. rewrite Himg.
    cbn -[glow_layer card_layer text_layer].
    unfold glow_layer. cbn -[blob_params render_blob card_layer text_layer].
    by rewrite Hblob. }
  split.
  - destruct (Image_new "RGB" (width, height) [10; 12; 26]) as [img | e] eqn:E.
    + exists (Exc ValueError msg). by apply (Hall img).
    + exists e. unfold render. by rewrite E.
  - intros img Himg. exists msg. by apply (Hall img).
Qed.

End HandlerMore.

(** ** Base64 *)

Module Base64Facts.

(** Induction three bytes at a time, as [b64encode] recurses. *)
Lemma triples_ind {A} (Q : list A -> Prop) :
  Q [] -> (forall a, Q [a]) -> (forall a b, Q [a; b]) ->
  (forall a b c rest, Q rest -> Q (a :: b :: c :: rest)) ->
  forall l, Q l.
Proof.
  intros H0 H1 H2 H3.
  fix IH 1.
  intros [| a [| b [| c rest]]];
    [exact H0 | apply H1 | apply H2 | apply H3, IH].
Qed.

Lemma alphabet_length : length b64_alphabet = 64%nat.
Proof. reflexivity. Qed.

Lemma alphabet_NoDup : NoDup b64_alphabet.
Proof. apply (bool_decide_unpack _). vm_compute. exact I. Qed.

Lemma pad_not_in_alphabet : ~ In b64_pad b64_alphabet.
Proof.
  intros Hin. apply list_elem_of_In in Hin. revert Hin.
  apply (bool_decide_unpack _). vm_compute. exact I.
Qed.

Lemma digit_index n : (Z.to_nat (n mod 64) < length b64_alphabet)%nat.
Proof.
  rewrite alphabet_length. pose proof (Z.mod_pos_bound n 64). lia.
Qed.

Lemma digit_in_alphabet n : In (b64_digit n) b64_alphabet.
Proof. unfold b64_digit. apply nth_In, digit_index. Qed.

Lemma digit_not_pad n : b64_digit n <> b64_pad.
Proof.
  intros E. apply pad_not_in_alphabet. rewrite <- E. apply digit_in_alphabet.
Qed.

Lemma digit_inj n m : b64_digit n = b64_digit m -> n mod 64 = m mod 64.
Proof.
  unfold b64_digit. intros E.
  pose proof alphabet_NoDup as Hnd. apply NoDup_ListNoDup in Hnd.
  rewrite (NoDup_nth b64_alphabet 0%N) in Hnd.
  apply Hnd in E; try apply digit_index.
  pose proof (Z.mod_pos_bound n 64). pose proof (Z.mod_pos_bound m 64). lia.
Qed.

Lemma byte_val_inj a b : byte_val a = byte_val b -> a = b.
Proof.
  unfold byte_val. intros E. apply N2Z.inj in E.
  apply (f_equal Byte.of_N) in E. rewrite !Byte.of_to_N in E. congruence.
Qed.

End Base64Facts.

(** X11. The base64 text of [n] bytes has 4 characters for every 3 bytes
    begun, each of them a letter of the base64 alphabet or the padding
    sign. *)
Theorem b64encode_shape (bs : list Byte.byte) :
  len (b64encode bs) = 4 * ((len bs + 2) / 3)
  /\ Forall (fun c => In c b64_alphabet \/ c = b64_pad) (b64encode bs).
Proof.
  induction bs as [| a | a b | a b c rest [IHlen IHall]]
    using Base64Facts.triples_ind.
  - split; [reflexivity | constructor].
  - split; [reflexivity |].
    repeat (constructor; [first [left; apply Base64Facts.digit_in_alphabet
                                | by right] |]).
    constructor.
  - split; [reflexivity |].
    repeat (constructor; [first [left; apply Base64Facts.digit_in_alphabet
                                | by right] |]).
    constructor.
  - split.
    + cbn [b64encode]. unfold len in *. cbn [length].
      rewrite !Nat2Z.inj_succ, IHlen.
      replace (Z.succ (Z.succ (Z.succ (Z.of_nat (length rest)))) + 2)
        with (Z.of_nat (length rest) + 2 + 1 * 3) by lia.
      rewrite Z.div_add by lia. lia.
    + cbn [b64encode].
      repeat (constructor; [left; apply Base64Facts.digit_in_alphabet |]).
      exact IHall.
Qed.

Module Base64Groups.
Import Base64Facts.

(** The four digits of a 24-bit group determine it. *)
Lemma group_inj n m :
  0 <= n < 16777216 -> 0 <= m < 16777216 ->
  (n / 262144) mod 64 = (m / 262144) mod 64 ->
  (n / 4096) mod 64 = (m / 4096) mod 64 ->
  (n / 64) mod 64 = (m / 64) mod 64 ->
  n mod 64 = m mod 64 ->
  n = m.
Proof.
  intros Hn Hm E3 E2 E1 E0.
  rewrite (Z.div_mod n 64), (Z.div_mod m 64), E0 by lia. f_equal. f_equal.
  rewrite (Z.div_mod (n / 64) 64), (Z.div_mod (m / 64) 64), E1 by lia.
  f_equal. f_equal.
  rewrite !Z.div_div by lia. change (64 * 64) with 4096.
  rewrite (Z.div_mod (n / 4096) 64), (Z.div_mod (m / 4096) 64), E2 by lia.
  f_equal. f_equal.
  rewrite !Z.div_div by lia. change (4096 * 64) with 262144.
  rewrite <- (Z.mod_small (n / 262144) 64), <- (Z.mod_small (m / 262144) 64);
    [exact E3 | |].
  - split; [apply Z.div_pos; lia |].
    apply Z.div_lt_upper_bound; lia.
  - split; [apply Z.div_pos; lia |].
    apply Z.div_lt_upper_bound; lia.
Qed.

Lemma group_of_bytes a b c a' b' c' :
  byte_val a * 65536 + byte_val b * 256 + byte_val c
  = byte_val a' * 65536 + byte_val b' * 256 + byte_val c' ->
  a = a' /\ b = b' /\ c = c'.
Proof.
  intros E.
  pose proof (byte_val_range a). pose proof (byte_val_range b).
  pose proof (byte_val_range c). pose proof (byte_val_range a').
  pose proof (byte_val_range b'). pose proof (byte_val_range c').
  repeat split; apply byte_val_inj; lia.
Qed.

End Base64Groups.

Module Base64Bytes.
Import Base64Facts Base64Groups.

Lemma low_digits_1 a :
  (byte_val a * 65536 / 64) mod 64 = 0 /\ (byte_val a * 65536) mod 64 = 0.
Proof. Z.div_mod_to_equations. lia. Qed.

Lemma low_digits_2 a b :
  (byte_val a * 65536 + byte_val b * 256) mod 64 = 0.
Proof. Z.div_mod_to_equations. lia. Qed.

Lemma group_range a b c :
  0 <= byte_val a * 65536 + byte_val b * 256 + byte_val c < 16777216.
Proof.
  pose proof (byte_val_range a). pose proof (byte_val_range b).
  pose proof (byte_val_range c). lia.
Qed.

Lemma four_inj {A} (a b c d a' b' c' d' : A) l l' :
  a :: b :: c :: d :: l = a' :: b' :: c' :: d' :: l' ->
  a = a' /\ b = b' /\ c = c' /\ d = d' /\ l = l'.
Proof. intros [= -> -> -> -> ->]. auto. Qed.

End Base64Bytes.

(** X12. Base64 encoding loses nothing: two byte strings with the same
    base64 text are the same byte string. *)
Theorem b64encode_inj (bs1 : list Byte.byte) :
  forall bs2, b64encode bs1 = b64encode bs2 -> bs1 = bs2.
Proof.
  induction bs1 as [| a | a b | a b c rest IH]
    using Base64Facts.triples_ind;
    intros [| a' [| b' [| c' rest']]]; cbn [b64encode]; intros E;
    try discriminate E; try reflexivity;
    apply Base64Bytes.four_inj in E as (E3 & E2 & E1 & E0 & Erest);
    try (exfalso; first
           [ by apply (Base64Facts.digit_not_pad _ E1)
           | by apply (Base64Facts.digit_not_pad _ (eq_sym E1))
           | by apply (Base64Facts.digit_not_pad _ E0)
           | by apply (Base64Facts.digit_not_pad _ (eq_sym E0)) ]).
  - apply Base64Facts.digit_inj in E3, E2.
    pose proof (Base64Bytes.low_digits_1 a) as [La1 La0].
    pose proof (Base64Bytes.low_digits_1 a') as [Lb1 Lb0].
    pose proof (byte_val_range a).
    pose proof (byte_val_range a').
    assert (En : byte_val a * 65536 = byte_val a' * 65536)
      by (apply Base64Groups.group_inj; lia).
    f_equal. apply Base64Facts.byte_val_inj. lia.
  - apply Base64Facts.digit_inj in E3, E2, E1.
    pose proof (Base64Bytes.low_digits_2 a b) as La0.
    pose proof (Base64Bytes.low_digits_2 a' b') as Lb0.
    pose proof (Base64Bytes.group_range a b Byte.x00) as Hr.
    pose proof (Base64Bytes.group_range a' b' Byte.x00) as Hr'.
    change (byte_val Byte.x00) with 0 in Hr, Hr'.
    assert (En : byte_val a * 65536 + byte_val b * 256 + byte_val Byte.x00
                 = byte_val a' * 65536 + byte_val b' * 256
                   + byte_val Byte.x00).
    { change (byte_val Byte.x00) with 0. rewrite !Z.add_0_r.
      apply Base64Groups.group_inj; lia. }
    apply Base64Groups.group_of_bytes in En as (-> & -> & _). reflexivity.
  - apply Base64Facts.digit_inj in E3, E2, E1.
    apply Base64Facts.digit_inj in E0.
    assert (En : byte_val a * 65536 + byte_val b * 256 + byte_val c
                 = byte_val a' * 65536 + byte_val b' * 256 + byte_val c').
    { apply Base64Groups.group_inj; try apply Base64Bytes.group_range; assumption. }
    apply Base64Groups.group_of_bytes in En as (-> & -> & ->).
    f_equal. f_equal. f_equal. by apply IH.
Qed.

(** ** The diagnostics handler, further *)

(** Run the handler in each of its cases: the import raises (an
    [ImportError] or not), gives no handle, or gives a handle whose name
    and listing each succeed or raise. *)
Ltac diagnose env :=
  let Himp := fresh "Himp" in
  destruct (import_db env) as [? | [[[| ? | ?] [? | ?]] |]] eqn:Himp;
  repeat match goal with
         | e : exc |- _ =>
             lazymatch goal with
             | H : is_import_error e = _ |- _ => fail
             | _ => destruct (is_import_error e) eqn:?
             end
         end;
  (eexists; split;
   [run; rewrite Himp; cbv beta iota delta [db_name list_collection_names];
    repeat match goal with
           | H : is_import_error _ = _ |- _ => progress rewrite H
           end;
    reflexivity |]).

(** X13. The dictionary the diagnostics handler returns always has the
    same six keys, and its [backend] entry always reads "Running". *)
Theorem test_database_keys (env : Environment) :
  exists response,
    Diagnostics.test_database env = Ok response
    /\ dom response
       = {[ "backend"; "database"; "database_url"; "database_name";
            "connection_status"; "collections" ]}
    /\ response !! "backend" = Some (VStr (check_mark ++ lit " Running")).
Proof.
  diagnose env; (split; [| unfold Diagnostics.response0; by read_key]);
    unfold Diagnostics.response0; rewrite !dom_insert_L, dom_empty_L;
    set_solver.
Qed.

(** X14. The [database_url] and [database_name] entries report only
    whether the two environment variables are set to a non-empty value:
    what the handler wrote there from the database handle, its name
    included, is always overwritten. *)
Theorem test_database_environment (env : Environment) :
  exists response,
    Diagnostics.test_database env = Ok response
    /\ response !! "database_url"
       = Some (VStr (if truthy (getenv env "DATABASE_URL")
                     then check_mark ++ lit " Set"
                     else cross_mark ++ lit " Not Set"))
    /\ response !! "database_name"
       = Some (VStr (if truthy (getenv env "DATABASE_NAME")
                     then check_mark ++ lit " Set"
                     else cross_mark ++ lit " Not Set")).
Proof.
  diagnose env; unfold Diagnostics.set_or_not;
    (split; [read_key; by destruct (truthy _)
            | read_key; by destruct (truthy _)]).
Qed.

(** X15. [connection_status] reads "Connected" exactly when the import
    gave a handle whose name could be read, whether or not the
    collections could then be listed; otherwise it keeps its initial "Not
    Connected". *)
Theorem test_database_connection_status (env : Environment) :
  exists response,
    Diagnostics.test_database env = Ok response
    /\ (handle_named env ->
        response !! "connection_status" = Some (VStr (lit "Connected")))
    /\ (~ handle_named env ->
        response !! "connection_status"
        = Some (VStr (lit "Not Connected"))).
Proof.
  unfold handle_named.
  destruct (import_db env) as [e | [[[| name | e] [cs | e']] |]] eqn:Himp;
    try destruct (is_import_error e) eqn:Hie;
    (eexists; split;
     [run; try rewrite Himp;
      cbv beta iota delta [db_name list_collection_names];
      rewrite ?Hie; reflexivity |]);
    (split;
     [ intros (db & Heq & Hname);
       first [ discriminate Heq
             | injection Heq as <-; cbn [db_name] in Hname;
               first [ exfalso; by eapply Hname
                     | read_key; reflexivity ] ]
     | intros Hnot;
       first [ exfalso; apply Hnot; eexists; split; [reflexivity |];
               cbn [db_name]; discriminate
             | unfold Diagnostics.response0; read_key; reflexivity ] ]).
Qed.

Section SeedSign.
Context {L : Libm} {P : Pillow}.

(** X16. With CPython's generator the sign of the seed is ignored: a
    seed and its negation give the same picture. *)
Theorem seed_sign_ignored
    (prompt : pystr) (width height seed : Z) (w : World) :
  fst (_generate_placeholder_image (R := mersenne_twister)
         prompt width height (Some (- seed)) w)
  = fst (_generate_placeholder_image (R := mersenne_twister)
           prompt width height (Some seed) w).
Proof.
  rewrite !seeded_synthesis. cbn [fst Random mersenne_twister].
  unfold MT19937.seed. by rewrite Z.abs_opp.
Qed.

End SeedSign.

(** X17. A prompt made of separators only passes validation when it has 2
    to 280 code points, and the synthesizer then draws the empty text: no
    line, no word. *)
Theorem blank_prompt_draws_nothing
    (p : pystr) (wd ht : Z) (sd : option Z) :
  Forall (fun c => py_isspace c = true) p ->
  2 <= len p <= 280 -> 256 <= wd <= 1024 -> 256 <= ht <= 1024 ->
  validate (Body (Some p) (Some wd) (Some ht) sd)
  = inl (GenerateRequest.Build p wd ht sd)
  /\ Wrap.wrap_text p 32 = []
  /\ py_join newline (Wrap.wrap_text p 32) = [].
Proof.
  intros Hblank Hp Hw Hh.
  assert (Hnone : Wrap.wrap_text p 32 = []).
  { unfold Wrap.wrap_text, Wrap.wrap_lines, py_split.
    by rewrite split_from_spaces. }
  split; [by apply validate_accepts |]. split; [exact Hnone |].
  by rewrite Hnone.
Qed.

(** Three blanks. *)
Lemma blank_prompt_draws_nothing_witness :
  validate (Body (Some (lit "   ")) (Some 256) (Some 256) None)
  = inl (GenerateRequest.Build (lit "   ") 256 256 None)
  /\ Wrap.wrap_text (lit "   ") 32 = []
  /\ py_join newline (Wrap.wrap_text (lit "   ") 32) = [].
Proof.
  apply (blank_prompt_draws_nothing (lit "   ") 256 256 None);
    [repeat constructor | change (len (lit "   ")) with 3; lia | lia | lia].
Defined.

(** ** The synthesizer's sizes *)

Lemma checked_range (f : Z -> bool) (n : nat) (m : Z) :
  forallb f (map Z.of_nat (seq 0 n)) = true ->
  0 <= m < Z.of_nat n -> f m = true.
Proof.
  intros Hall Hm. rewrite forallb_forall in Hall. apply Hall.
  apply in_map_iff. exists (Z.to_nat m). split; [lia |].
  apply in_seq. lia.
Qed.

Lemma card_font_checked :
  forallb card_font_exact (map Z.of_nat (seq 0 1025)) = true.
Proof. vm_compute. reflexivity. Qed.

Lemma card_font_sizes width height :
  0 <= width <= 1024 -> 0 <= height <= 1024 ->
  scaled width height f0_08 = Ok (8 * Z.min width height / 100)
  /\ scaled width height f0_04 = Ok (4 * Z.min width height / 100).
Proof.
  intros Hw Hh. rewrite (scaled_min _ _ f0_08), (scaled_min _ _ f0_04).
  set (m := Z.min width height).
  pose proof (checked_range card_font_exact 1025 m card_font_checked) as Hm.
  unfold card_font_exact in Hm.
  destruct (scaled m m f0_08) as [margin |], (scaled m m f0_04) as [size |];
    try (discriminate Hm; lia).
  destruct (andb_prop _ _ (Hm ltac:(lia))) as [E1 E2].
  apply Z.eqb_eq in E1, E2. by subst.
Qed.

Section SizesMore.
Context {R : PRNG} {L : Libm} {P : Pillow}.

(** X18. On a canvas between 1 and 1024 pixels each way, the card's
    margin is 8% of the smaller side rounded down (the float product
    loses nothing); the card is pasted at (margin, margin) and is
    [width - 2 margin] by [height - 2 margin], both positive, so it lies
    within the canvas with the same margin on every side. *)
Theorem card_layer_geometry (width height : Z) (img : image) :
  1 <= width <= 1024 -> 1 <= height <= 1024 ->
  let margin := 8 * Z.min width height / 100 in
  0 <= margin
  /\ 0 < width - 2 * margin <= width
  /\ 0 < height - 2 * margin <= height
  /\ card_layer width height img
     = (let* card := Image_new "RGBA"
                       (width - 2 * margin, height - 2 * margin)
                       [20; 24; 48; 180] in
        let* card := GaussianBlur card f0_5 in
        paste img card (margin, margin) card).
Proof.
  intros Hw Hh margin.
  assert (Hm : 0 <= margin /\ 2 * margin < Z.min width height).
  { unfold margin. set (m := Z.min width height).
    assert (1 <= m <= 1024) by lia.
    Z.div_mod_to_equations. lia. }
  split; [lia |]. split; [lia |]. split; [lia |].
  unfold card_layer.
  destruct (card_font_sizes width height) as [-> _]; [lia | lia |].
  cbn -[Z.mul Z.sub Z.div]. fold margin.
  replace (width - margin - margin) with (width - 2 * margin) by lia.
  replace (height - margin - margin) with (height - 2 * margin) by lia.
  reflexivity.
Qed.

(** X19. On a canvas of up to 1024 pixels each way, the font size asked
    of [_get_font] is 18 whenever the smaller side is below 475 pixels
    and 4% of it rounded down above that; it is never less than 18 or
    more than 40. *)
Theorem font_size_range (width height : Z) :
  0 <= width <= 1024 -> 0 <= height <= 1024 ->
  exists m, scaled width height f0_04 = Ok m
    /\ m = 4 * Z.min width height / 100
    /\ 18 <= Z.max 18 m <= 40
    /\ (Z.min width height < 475 -> Z.max 18 m = 18)
    /\ (475 <= Z.min width height -> Z.max 18 m = m).
Proof.
  intros Hw Hh. destruct (card_font_sizes width height Hw Hh) as [_ ->].
  eexists. split; [reflexivity |]. split; [reflexivity |].
  set (m := Z.min width height). assert (Hm : 0 <= m <= 1024) by lia.
  Z.div_mod_to_equations. lia.
Qed.


End SizesMore.

(** ** The mask loop *)

Lemma unit_ratio_checked :
  forallb (fun r => (r =? 0) || unit_ratio r) (map Z.of_nat (seq 0 615))
  = true.
Proof. vm_compute. reflexivity. Qed.

Lemma float_eqb_eq x y : float_eqb x y = true -> x = y.
Proof.
  destruct x as [s | s | | s m e], y as [s' | s' | | s' m' e'];
    cbn [float_eqb]; try discriminate; try reflexivity.
  - intros E. apply Bool.eqb_prop in E. by subst.
  - intros E. apply Bool.eqb_prop in E. by subst.
  - intros E. apply andb_prop in E as [E Ee]. apply andb_prop in E as [Es Em].
    apply Bool.eqb_prop in Es. apply Pos.eqb_eq in Em. apply Z.eqb_eq in Ee.
    by subst.
Qed.

Lemma int_truediv_self r : 1 <= r <= 614 -> int_truediv r r = Ok f1_0.
Proof.
  intros Hr.
  pose proof (checked_range _ 615 r unit_ratio_checked ltac:(lia)) as Hc.
  cbn beta in Hc. destruct (Z.eqb_spec r 0) as [| _]; [lia |].
  cbn [orb] in Hc. unfold unit_ratio in Hc.
  destruct (int_truediv r r) as [q |]; [| discriminate].
  apply float_eqb_eq in Hc. by subst.
Qed.

Lemma range_down2_cons radius :
  0 < radius -> range_down2 radius = radius :: range_down2 (radius - 2).
Proof.
  intros Hpos. unfold range_down2.
  replace (Z.to_nat ((radius + 1) / 2))
    with (S (Z.to_nat ((radius - 2 + 1) / 2))).
  - cbn [seq map]. f_equal; [lia |].
    rewrite <- seq_shift, map_map. apply map_ext. intros i. lia.
  - rewrite <- Z2Nat.inj_succ by (apply Z.div_pos; lia).
    f_equal. Z.div_mod_to_equations. lia.
Qed.

(** X21. The radii of the mask's ellipses are exactly the positive
    integers that differ from the blob's radius by an even amount, the
    largest first; a radius of zero or less draws none. *)
Theorem range_down2_members (radius r : Z) :
  (In r (range_down2 radius)
   <-> 0 < r <= radius /\ (radius - r) mod 2 = 0)
  /\ (0 < radius -> range_down2 radius = radius :: range_down2 (radius - 2))
  /\ (radius <= 0 -> range_down2 radius = []).
Proof.
  split; [| split].
  - unfold range_down2. rewrite in_map_iff. split.
    + intros (i & <- & Hi). apply in_seq in Hi.
      assert (Z.of_nat i < (radius + 1) / 2) by lia.
      split; Z.div_mod_to_equations; lia.
    + intros [Hr Heven]. exists (Z.to_nat ((radius - r) / 2)). split.
      * rewrite Z2Nat.id by (apply Z.div_pos; lia).
        Z.div_mod_to_equations. lia.
      * apply in_seq. split; [lia |].
        rewrite Nat.add_0_l. apply Z2Nat.inj_lt.
        -- apply Z.div_pos; lia.
        -- apply Z.div_pos; lia.
        -- Z.div_mod_to_equations. lia.
  - apply range_down2_cons.
  - intros Hneg. unfold range_down2.
    replace (Z.to_nat ((radius + 1) / 2)) with 0%nat; [reflexivity |].
    assert ((radius + 1) / 2 <= 0) by (Z.div_mod_to_equations; lia). lia.
Qed.

Section MaskMore.
Context {R : PRNG} {L : Libm} {P : Pillow}.

(** X22. Provided the C library's [pow] maps 1.0 and 2.0 to 1.0, the
    first ellipse of a blob's mask, the one of the blob's own radius, is
    filled with 255: for every radius from 1 to 614, which covers the
    radii of every canvas up to 1024 pixels, the blob is fully opaque at
    its rim. *)
Theorem glow_alpha_rim (radius : Z) :
  c_pow f1_0 f2_0 = f1_0 ->
  1 <= radius <= 614 ->
  glow_alpha radius radius = Ok 255
  /\ exists rest, range_down2 radius = radius :: rest.
Proof.
  intros Hpow Hr. split.
  - unfold glow_alpha. rewrite (int_truediv_self radius Hr).
    cbn [bind result_monad]. rewrite Hpow. reflexivity.
  - eexists. apply range_down2_cons. lia.
Qed.

End MaskMore.

(** ** Further runs on the concrete collaborators *)

Section ConcreteMore.
#[local] Existing Instance mersenne_twister.
#[local] Existing Instance Square.libm.
#[local] Existing Instance Canvas.working.

(** A width of -1, which validation would not let through. *)
Lemma render_negative_size_witness :
  exists e, render (lit "A cat") (-1) 256 (Random 42) = Raise e.
Proof.
  destruct (render_negative_size (lit "A cat") (-1) 256 (Random 42))
    as [Hraises _]; [left; lia | exact Hraises].
Defined.

(** The card of a 256 by 300 canvas: margin 20. *)
Lemma card_layer_geometry_witness :
  let canvas : image := Canvas.New "RGB" (256, 300) [10; 12; 26] in
  0 <= 20
  /\ 0 < 256 - 2 * 20 <= 256
  /\ 0 < 300 - 2 * 20 <= 300
  /\ card_layer 256 300 canvas
     = (let* card := Image_new "RGBA" (256 - 2 * 20, 300 - 2 * 20)
                       [20; 24; 48; 180] in
        let* card := GaussianBlur card f0_5 in
        paste canvas card (20, 20) card).
Proof.
  intros canvas. apply (card_layer_geometry 256 300 canvas); lia.
Defined.

(** A 1024 by 600 canvas: font size 24. *)
Lemma font_size_range_witness :
  exists m, scaled 1024 600 f0_04 = Ok m
    /\ m = 4 * Z.min 1024 600 / 100
    /\ 18 <= Z.max 18 m <= 40
    /\ (Z.min 1024 600 < 475 -> Z.max 18 m = 18)
    /\ (475 <= Z.min 1024 600 -> Z.max 18 m = m).
Proof. apply (font_size_range 1024 600); lia. Defined.

(** A blob of radius 100 with the squaring [pow]. *)
Lemma glow_alpha_rim_witness :
  glow_alpha 100 100 = Ok 255
  /\ exists rest, range_down2 100 = 100 :: rest.
Proof. apply (glow_alpha_rim 100); [reflexivity | lia]. Defined.

(** Two byte strings with the text "TWE=". *)
Lemma b64encode_inj_witness :
  [Byte.x4d; Byte.x61] = [Byte.x4d; Byte.x61].
Proof.
  apply (b64encode_inj [Byte.x4d; Byte.x61] [Byte.x4d; Byte.x61]).
  reflexivity.
Defined.

(** More base64 texts, as CPython gives them. *)
Example b64encode_samples :
  b64encode [Byte.xfb; Byte.xff] = lit "+/8="
  /\ b64encode [Byte.x00] = lit "AA=="
  /\ b64encode [Byte.xff; Byte.xfe; Byte.xfd] = lit "//79".
Proof. repeat split. Qed.

End ConcreteMore.
